(** * Discover "eventsV2" utilities: the drill-down query expander

    A shallow embedding of [app/views/eventsV2/utils.tsx]
    ([normalizeUserTag], [transformAggregate], [getExpandedResults],
    [generateAdditionalConditions], [generateExpandedConditions] and the
    cell resolution of [downloadAsCsv]) together with the fragment of
    ECMAScript the functions rely on: strings and their [split], [trim]
    and regular-expression tests, [parseInt], truthiness, plain objects
    with their property enumeration order, and a store of mutable
    [EventView] objects.

    What the module imports (the field codec, the table of aggregates,
    the filter tokenizer, ...) is a parameter of the development, the
    class [Imports]; the methods of [EventView] it calls are modelled
    from the specification.  The first part of the file holds the
    definitions, the second the properties: the passes of
    [getExpandedResults] are proved equal to a functional reading of
    them ([getExpandedResults_run]), and the claims follow. *)

From Stdlib Require Import ZArith NArith Ascii String List Bool Lia DecimalString.
From stdpp Require Import base option list gmap strings.

Local Open Scope Z_scope.

(** ** ECMAScript strings

    A string is a sequence of code units; the embedding covers the code
    units 0-255, one [ascii] each. *)

(** [WhiteSpace] and [LineTerminator] code points below 256: TAB, LF, VT,
    FF, CR, SP and NBSP.  Both [String.prototype.trim] and the [\s] class
    of a regular expression use this set. *)
Definition isWhiteSpace (c : ascii) : bool :=
  match N_of_ascii c with
  | 9 | 10 | 11 | 12 | 13 | 32 | 160 => true
  | _ => false
  end%N.

Definition isDigit (c : ascii) : bool :=
  ((48 <=? N_of_ascii c) && (N_of_ascii c <=? 57))%N.

Definition digitValue (c : ascii) : Z := Z.of_N (N_of_ascii c) - 48.

Fixpoint trimStart (s : string) : string :=
  match s with
  | EmptyString => EmptyString
  | String c s' => if isWhiteSpace c then trimStart s' else s
  end.

Fixpoint trimEnd (s : string) : string :=
  match s with
  | EmptyString => EmptyString
  | String c s' =>
      match trimEnd s' with
      | EmptyString => if isWhiteSpace c then EmptyString else String c EmptyString
      | r => String c r
      end
  end.

(** [String.prototype.trim]. *)
Definition trim (s : string) : string := trimEnd (trimStart s).

Fixpoint existsChar (p : ascii -> bool) (s : string) : bool :=
  match s with
  | EmptyString => false
  | String c s' => p c || existsChar p s'
  end.

Fixpoint forallChar (p : ascii -> bool) (s : string) : bool :=
  match s with
  | EmptyString => true
  | String c s' => p c && forallChar p s'
  end.

(** [s.split(sep)] for a one-character separator: every occurrence of the
    separator cuts; the result is never empty. *)
Fixpoint split (sep : ascii) (s : string) : list string :=
  match s with
  | EmptyString => [EmptyString]
  | String c s' =>
      if Ascii.eqb c sep then EmptyString :: split sep s'
      else match split sep s' with
           | p :: ps => String c p :: ps
           | [] => [String c EmptyString]
           end
  end.

(** [s.split(sep, limit)]: the pieces are computed as for [split] and the
    array is cut after [limit] of them. *)
Definition splitLimit (sep : ascii) (limit : nat) (s : string) : list string :=
  take limit (split sep s).

(** [arr.join(sep)]. *)
Fixpoint join (sep : string) (l : list string) : string :=
  match l with
  | [] => ""
  | [x] => x
  | x :: l' => x +:+ sep +:+ join sep l'
  end.

(** ** ECMAScript numbers and values *)

(** The numbers of the embedding: the doubles that are integers, the two
    infinities and the not-a-number marker.  [Num z] is the double of
    value [z], and [Num 0] the positive zero; a double that is an integer
    is an integer below 2^53 in magnitude, or a 53-bit integer times a
    power of two, up to (2^53 - 1) * 2^971.  Numbers with a fraction are
    outside the embedding. *)
Inductive JsNumber : Type :=
| NaN
| Num (z : Z)
| NegZero
| Infinity (negative : bool).

#[global] Instance JsNumber_eq_dec : EqDecision JsNumber.
Proof. solve_decision. Defined.

(** The Number value for the positive integer [m]: the double nearest to
    it, the one with the even significand when [m] is half way between
    two; [None] when that is beyond the largest double, where the Number
    value is an infinity. *)
Definition roundToDouble (m : Z) : option Z :=
  let e := Z.log2 m - 52 in
  if e <=? 0 then Some m
  else
    let q := m / 2 ^ e in
    let r := m mod 2 ^ e in
    let half := 2 ^ (e - 1) in
    let q' := if (half <? r) || ((r =? half) && Z.odd q) then q + 1 else q in
    if q' * 2 ^ e <? 2 ^ 1024 then Some (q' * 2 ^ e) else None.

Fixpoint digitsValue (acc : Z) (s : string) : Z :=
  match s with
  | EmptyString => acc
  | String c s' => if isDigit c then digitsValue (10 * acc + digitValue c) s' else acc
  end.

(** [parseInt(s, 10)]: leading white space is skipped, one sign is read,
    then the longest run of decimal digits; no digit gives [NaN].  The
    result is the Number value for the integer the digits denote, with
    its sign: the nearest double, an infinity beyond the doubles, and the
    negative zero for a zero after a minus sign.  (With more than twenty
    significant digits the standard lets an implementation read the
    digits after the twentieth as zeros; the embedding reads them all.) *)
Definition parseInt (s : string) : JsNumber :=
  let number (negative : bool) (t : string) : JsNumber :=
    match t with
    | String c _ =>
        if isDigit c then
          let n := digitsValue 0 t in
          if n =? 0 then (if negative then NegZero else Num 0)
          else match roundToDouble n with
               | Some d => Num (if negative then - d else d)
               | None => Infinity negative
               end
        else NaN
    | EmptyString => NaN
    end in
  match trimStart s with
  | String "-" t => number true t
  | String "+" t => number false t
  | t => number false t
  end.

(** A tag of an event: [{key, value}]. *)
Record Tag : Type := { tag_key : string; tag_value : string }.

(** The values a data row holds under its properties: the scalars, and the
    array of tags an [Event] carries under [tags]. *)
Inductive JsValue : Type :=
| VUndefined
| VNull
| VBool (b : bool)
| VNumber (n : JsNumber)
| VString (s : string)
| VTags (tags : list Tag).

(** The decimal numeral of a natural number. *)
Definition decimal (m : Z) : string := NilZero.string_of_int (Z.to_int m).

(** Of the numbers with at most [k] significant digits, out of the [n0]
    digits of the double [m], one whose Number value is [m]: the one
    nearest to [m] of those just below and just above it, and of two
    equally near the one whose digits make an even number. *)
Definition shortCandidate (m : Z) (n0 k : nat) : option Z :=
  let p := 10 ^ Z.of_nat (n0 - k) in
  let lo := m / p * p in
  let hi := lo + p in
  let okLo := bool_decide (roundToDouble lo = Some m) in
  let okHi := bool_decide (roundToDouble hi = Some m) in
  if okLo && okHi then
    if m - lo <? hi - m then Some lo
    else if hi - m <? m - lo then Some hi
    else if Z.even (m / p) then Some lo else Some hi
  else if okLo then Some lo
  else if okHi then Some hi
  else None.

(** The number with the fewest significant digits whose Number value is
    the double [m]. *)
Fixpoint shortest (m : Z) (n0 : nat) (ks : list nat) : Z :=
  match ks with
  | [] => m
  | k :: ks' =>
      match shortCandidate m n0 k with
      | Some c => c
      | None => shortest m n0 ks'
      end
  end.

Fixpoint dropTrailingZeros (s : string) : string :=
  match s with
  | EmptyString => EmptyString
  | String c s' =>
      match dropTrailingZeros s' with
      | EmptyString => if Ascii.eqb c "0" then EmptyString else String c EmptyString
      | r => String c r
      end
  end.

(** [Number::toString] of a positive double that is an integer: the
    digits of the shortest number that reads back as the double,
    followed by zeros, when that has at most 21 digits, and in exponent
    notation otherwise.  (Below 2^53 these are the digits of the integer
    itself.) *)
Definition positiveToString (m : Z) : string :=
  let n0 := String.length (decimal m) in
  let ds := decimal (shortest m n0 (seq 1 n0)) in
  let n := String.length ds in
  if (n <=? 21)%nat then ds
  else
    match dropTrailingZeros ds with
    | String d EmptyString => String d ("e+" +:+ decimal (Z.of_nat n - 1))
    | String d rest => String d ("." +:+ rest +:+ "e+" +:+ decimal (Z.of_nat n - 1))
    | EmptyString => ds
    end.

Definition numberToString (n : JsNumber) : string :=
  match n with
  | NaN => "NaN"
  | NegZero => "0"
  | Infinity false => "Infinity"
  | Infinity true => "-Infinity"
  | Num z =>
      if z =? 0 then "0"
      else if z <? 0 then "-" +:+ positiveToString (- z)
      else positiveToString z
  end.

(** [String(value)]. An array prints its elements separated by commas, and
    a tag, being a plain object, prints as [[object Object]]. *)
Definition toString (v : JsValue) : string :=
  match v with
  | VUndefined => "undefined"
  | VNull => "null"
  | VBool true => "true"
  | VBool false => "false"
  | VNumber n => numberToString n
  | VString s => s
  | VTags tags => join "," (map (fun _ => "[object Object]") tags)
  end.

(** [ToBoolean]: what [||] and [&&] test. *)
Definition truthy (v : JsValue) : bool :=
  match v with
  | VUndefined | VNull => false
  | VBool b => b
  | VNumber NaN => false
  | VNumber NegZero => false
  | VNumber (Num z) => negb (z =? 0)
  | VNumber (Infinity _) => true
  | VString s => negb (String.eqb s "")
  | VTags _ => true
  end.

(** [a || b]. *)
Definition jsOr (a b : JsValue) : JsValue := if truthy a then a else b.

(** ** Plain objects

    An object used as a dictionary is the list of its own properties in
    the order [for ... in], [Object.entries] and [Object.assign] visit
    them: the array-index keys first, in ascending numeric order, then
    the other keys in the order they were created.  (The key
    [__proto__], an assignment to which creates no property, is outside
    the embedding.) *)
Abbreviation Obj V := (list (string * V)).

(** The key is an array index: a canonical decimal numeral below 2^32-1. *)
Definition arrayIndex (k : string) : option N :=
  match k with
  | EmptyString => None
  | String c rest =>
      if forallChar isDigit k && (negb (Ascii.eqb c "0") || String.eqb rest "") then
        let n := Z.to_N (digitsValue 0 k) in
        if (n <? 4294967295)%N then Some n else None
      else None
  end.

Section Objects.
Context {V : Type}.

(** [o[k]] of an own property ([None]: there is no such property). *)
Fixpoint objGet (o : Obj V) (k : string) : option V :=
  match o with
  | [] => None
  | (k', v) :: o' => if decide (k' = k) then Some v else objGet o' k
  end.

Definition objKeys (o : Obj V) : list string := map fst o.

Fixpoint objReplace (k : string) (v : V) (o : Obj V) : Obj V :=
  match o with
  | [] => []
  | (k', v') :: o' =>
      if decide (k' = k) then (k, v) :: o' else (k', v') :: objReplace k v o'
  end.

(** A new array-index key goes before the first key that is no array
    index or a larger one. *)
Fixpoint objInsertIndex (n : N) (k : string) (v : V) (o : Obj V) : Obj V :=
  match o with
  | [] => [(k, v)]
  | (k', v') :: o' =>
      match arrayIndex k' with
      | Some n' =>
          if (n' <? n)%N then (k', v') :: objInsertIndex n k v o' else (k, v) :: o
      | None => (k, v) :: o
      end
  end.

(** [o[k] = v]. *)
Definition objSet (k : string) (v : V) (o : Obj V) : Obj V :=
  match objGet o k with
  | Some _ => objReplace k v o
  | None =>
      match arrayIndex k with
      | Some n => objInsertIndex n k v o
      | None => o ++ [(k, v)]
      end
  end.

(** [delete o[k]]. *)
Definition objDelete (k : string) (o : Obj V) : Obj V :=
  filter (fun kv => kv.1 <> k) o.

(** [Object.assign(target, source)]. *)
Definition objAssign (target source : Obj V) : Obj V :=
  fold_left (fun t kv => objSet kv.1 kv.2 t) source target.

End Objects.

(** ** What the module imports

    [utils.tsx] imports the field codec and the aggregate table from
    [app/utils/discover/fields], the filter tokenizer from
    [app/utils/tokenizeSearch], [getUtcDateString], [URL_PARAM] and
    [disableMacros]; none of them is defined in the module.  They are the
    parameters of the development. *)

(** The decoded form of a field.  Of an aggregate the module reads
    [function[0]], the name of the function, and [function[1]], its
    column argument (the empty string when the call has none). *)
Inductive Column : Type :=
| FieldCol (field : string)
| FunctionCol (function0 function1 : string).

Definition isFunction (c : Column) : bool :=
  match c with FunctionCol _ _ => true | FieldCol _ => false end.

(** [parameter.kind] of a formal parameter of an aggregate. *)
Inductive ParameterKind : Type := KindColumn | KindValue.

Record Aggregation : Type := { parameters : list ParameterKind }.

Class Imports : Type := {
  explodeFieldString : string -> Column;
  getAggregateAlias : string -> string;
  AGGREGATIONS : gmap string Aggregation;
  (** [Object.values(URL_PARAM)] *)
  URL_PARAM_values : list string;
  tokenizeSearch : string -> Obj (list string);
  stringifyQueryObject : Obj (list string) -> string;
  getUtcDateString : string -> string;
  disableMacros : JsValue -> JsValue
}.

(** ** Event views and the object store *)

Record Field : Type := { field : string; width : option Z }.

(** The state of an [EventView] the module reads and writes. *)
Record EventView : Type := {
  fields : list Field;
  query : string;
  project : list JsNumber;
  environment : list string
}.

Definition setFields (v : EventView) (fs : list Field) : EventView :=
  {| fields := fs; query := query v; project := project v; environment := environment v |}.
Definition setQuery (v : EventView) (q : string) : EventView :=
  {| fields := fields v; query := q; project := project v; environment := environment v |}.
Definition setProject (v : EventView) (p : list JsNumber) : EventView :=
  {| fields := fields v; query := query v; project := p; environment := environment v |}.
Definition setEnvironment (v : EventView) (e : list string) : EventView :=
  {| fields := fields v; query := query v; project := project v; environment := e |}.

(** Event views are objects: a variable holds a reference, and an
    assignment to a property is seen through every reference to the
    object.  The store lists the objects allocated so far; a reference is
    a position in it. *)
Abbreviation Ref := nat.
Abbreviation Store := (list EventView).

(** A computation reads and writes the store; [None] is a [TypeError]
    (a property read from [undefined]). *)
Definition M (A : Type) : Type := Store -> option (A * Store).

#[global] Instance M_ret : MRet M := fun A a st => Some (a, st).
#[global] Instance M_bind : MBind M := fun A B k m st =>
  match m st with
  | Some (a, st') => k a st'
  | None => None
  end.

Definition deref (r : Ref) : M EventView :=
  fun st => match st !! r with Some v => Some (v, st) | None => None end.
Definition alloc (v : EventView) : M Ref :=
  fun st => Some (length st, st ++ [v]).
Definition assign (r : Ref) (f : EventView -> EventView) : M unit :=
  fun st => match st !! r with Some v => Some (tt, <[r := f v]> st) | None => None end.
Definition liftOption {A} (o : option A) : M A :=
  fun st => match o with Some a => Some (a, st) | None => None end.

(** [l.forEach(x => { acc = f(acc, x) })] and [for (const x of l)]. *)
Fixpoint forEachM {A B} (f : A -> B -> M A) (l : list B) (a : A) : M A :=
  match l with
  | [] => mret a
  | x :: l' => a' ← f a x; forEachM f l' a'
  end.

(** Modelled from the spec: [EventView.clone] is not among the sources.
    The spec has views "cloned (never mutated in place)": the clone is a
    new object with the state of the original. *)
Definition clone (r : Ref) : M Ref := v ← deref r; alloc v.

(** Modelled from the spec: [generateFieldAsString], which
    [withUpdatedColumn] uses to encode a column, is not among the
    sources.  A bare reference is encoded as its name, an aggregate as
    the call it stands for. *)
Definition generateFieldAsString (col : Column) : string :=
  match col with
  | FieldCol f => f
  | FunctionCol f0 f1 => f0 +:+ "(" +:+ f1 +:+ ")"
  end.

(** Modelled from the spec: [EventView.withUpdatedColumn] is not among
    the sources.  "Replace the field" by the given column, with no
    explicit width; "each transformation produces a new QueryView; the
    original is left untouched". *)
Definition withUpdatedColumn (r : Ref) (columnIndex : nat) (updatedColumn : Column) : M Ref :=
  v ← deref r;
  alloc (setFields v
           (<[columnIndex := {| field := generateFieldAsString updatedColumn; width := None |}]>
              (fields v))).

(** Modelled from the spec: [EventView.withDeletedColumn] is not among
    the sources.  The field at the index is removed from the field list
    of a new view ("build-a-new-list-then-replace"). *)
Definition withDeletedColumn (r : Ref) (columnIndex : nat) : M Ref :=
  v ← deref r;
  alloc (setFields v (delete columnIndex (fields v))).

(** A data row: its own properties. *)
Abbreviation DataRow := (gmap string JsValue).

(** ** The module *)

(** [normalizeUserTag].  ([parts[0]] exists: [split] returns at least one
    piece.) *)
Definition normalizeUserTag (key value : string) : string * string :=
  let parts := splitLimit ":" 2 value in
  match parts with
  | [part0; part1] => (join "." [key; part0], part1)
  | _ => (key, default "" (parts !! 0%nat))
  end.

(** A map between aggregate function names and its un-aggregated form. *)
Definition TRANSFORM_AGGREGATES : gmap string string :=
  <["last_seen" := "timestamp"]>
  (<["latest_event" := ""]>
  (<["apdex" := ""]>
  (<["impact" := ""]>
  (<["user_misery" := ""]>
  (<["failure_rate" := ""]> ∅))))).

(** [/^p\d+$/.test(fieldName)] *)
Definition isPercentile (fieldName : string) : bool :=
  match fieldName with
  | String "p" ds => negb (String.eqb ds "") && forallChar isDigit ds
  | _ => false
  end.

(** The names of the members every object inherits from
    [Object.prototype] in the standard library.  Under such a name,
    unless the object has a property of its own, [o[name]] is the
    inherited member: a function, or the prototype object itself under
    [__proto__]. *)
Definition objectPrototypeMembers : list string :=
  [ "constructor"; "hasOwnProperty"; "isPrototypeOf"; "propertyIsEnumerable";
    "toLocaleString"; "toString"; "valueOf"; "__proto__";
    "__defineGetter__"; "__defineSetter__"; "__lookupGetter__"; "__lookupSetter__" ].

(** What [transformAggregate] returns: a string, or the member of
    [Object.prototype] of a name, which is truthy and no string. *)
Inductive TransformValue : Type :=
| TransformString (s : string)
| TransformInherited (member : string).

(** [transformAggregate].  [TRANSFORM_AGGREGATES[fieldName] || ''] reads
    the table through its prototype: the value of its own property, the
    empty string included; else the inherited member, when [fieldName]
    names one; else [undefined], for which the empty string is taken. *)
Definition transformAggregate (fieldName : string) : TransformValue :=
  if isPercentile fieldName then TransformString "transaction.duration"
  else
    match TRANSFORM_AGGREGATES !! fieldName with
    | Some s => TransformString s
    | None =>
        if bool_decide (fieldName ∈ objectPrototypeMembers)
        then TransformInherited fieldName
        else TransformString ""
    end.

(** [transformAggregate(fieldName) !== '']: an inherited member is not
    the empty string. *)
Definition isTransformAggregate (fieldName : string) : bool :=
  match transformAggregate fieldName with
  | TransformString s => negb (String.eqb s "")
  | TransformInherited _ => true
  end.

(** The class of the test in [shouldQuote]: white space, the two
    parentheses, the backslash and the double quote. *)
Definition quoteChar (c : ascii) : bool :=
  isWhiteSpace c || Ascii.eqb c "(" || Ascii.eqb c ")" || Ascii.eqb c "\" || Ascii.eqb c "034".

(** The [shouldQuote] and [nextValue] constants of
    [generateAdditionalConditions]. *)
Definition shouldQuote (value : JsValue) : bool :=
  match value with
  | VNull | VUndefined => false
  | _ => existsChar quoteChar (trim (toString value))
  end.

Definition nextValue (value : JsValue) : string :=
  match value with
  | VNull | VUndefined => ""
  | _ => if shouldQuote value then toString value else trim (toString value)
  end.

(** [tags[tags.findIndex(item => item.key === dataKey)]] *)
Definition findTag (tags : list Tag) (dataKey : string) : option Tag :=
  List.find (fun item => bool_decide (tag_key item = dataKey)) tags.


Section Utils.
Context `{Imports}.

(** The indices [getExpandedResults] flags for updates: those of the
    aggregate fields ([index] is the index of the head of [fs]). *)
Fixpoint findAggregates (index : nat) (fs : list Field) : list nat :=
  match fs with
  | [] => []
  | f :: fs' =>
      if isFunction (explodeFieldString (field f))
      then index :: findAggregates (S index) fs'
      else findAggregates (S index) fs'
  end.

(** The state the second [forEach] of [getExpandedResults] works on:
    [nextView], [transformedFields] and [fieldsToDelete]. *)
Definition UpdateState : Type := Ref * gset string * list nat.

(** The body of [fieldsToUpdate.forEach].

    When the function of the field is named like a member of
    [Object.prototype], [nextFieldName] is that member and no string:
    the source puts it into [transformedFields] and hands
    [withUpdatedColumn] a column whose [field] is the function, so that
    the field of the view is no string from there on, and what the
    imported codec makes of it is not given by the sources.  A view of
    the embedding holds strings: in its place the embedding has no
    field, the index being queued for deletion.  The theorems that say
    what the fields of the returned view are name the views they hold
    for ([functionIsOwn]). *)
Definition updateField (st : UpdateState) (indexToUpdate : nat) : M UpdateState :=
  let '(nextView, transformedFields, fieldsToDelete) := st in
  v ← deref nextView;
  currentField ← liftOption (fields v !! indexToUpdate);
  let exploded := explodeFieldString (field currentField) in
  let fieldNameAlias :=
    match exploded with
    | FunctionCol f0 _ => if isTransformAggregate f0 then f0 else ""
    | FieldCol f => if bool_decide (f <> "id") then f else ""
    end in
  if isTransformAggregate fieldNameAlias then
    match transformAggregate fieldNameAlias with
    | TransformString nextFieldName =>
        if String.eqb nextFieldName "" || bool_decide (nextFieldName ∈ transformedFields) then
          mret (nextView, transformedFields, fieldsToDelete ++ [indexToUpdate])
        else
          nextView' ← withUpdatedColumn nextView indexToUpdate (FieldCol nextFieldName);
          mret (nextView', {[nextFieldName]} ∪ transformedFields, fieldsToDelete)
    | TransformInherited _ =>
        mret (nextView, transformedFields, fieldsToDelete ++ [indexToUpdate])
    end
  else if
    match exploded with
    | FieldCol f => bool_decide (f ∈ transformedFields)
    | FunctionCol _ f1 => bool_decide (f1 ∈ transformedFields)
    end
  then mret (nextView, transformedFields, fieldsToDelete ++ [indexToUpdate])
  else
    match exploded with
    | FunctionCol f0 f1 =>
        if String.eqb f0 "count" || String.eqb f1 "id" then
          mret (nextView, transformedFields, fieldsToDelete ++ [indexToUpdate])
        else
          let parameters :=
            match AGGREGATIONS !! f0 with
            | Some a => parameters a
            | None => []
            end in
          if String.eqb f1 ""
             || (negb (Nat.eqb (length parameters) 0)
                 && forallb (fun p => match p with KindColumn => false | KindValue => true end)
                      parameters)
          then mret (nextView, transformedFields, fieldsToDelete ++ [indexToUpdate])
          else
            nextView' ← withUpdatedColumn nextView indexToUpdate (FieldCol f1);
            mret (nextView', {[f1]} ∪ transformedFields, fieldsToDelete)
    | FieldCol _ => mret (nextView, transformedFields, fieldsToDelete)
    end.

(** The body of [eventView.fields.forEach] in
    [generateAdditionalConditions]: the conditions after the field. *)
Definition conditionsOfField (dataRow : DataRow) (conditions : Obj string) (f : Field)
  : Obj string :=
  match explodeFieldString (field f) with
  | FunctionCol _ _ => conditions
  | FieldCol columnField =>
      let dataKey := getAggregateAlias (field f) in
      let conditions :=
        match dataRow !! dataKey with
        | Some value =>
            let nextValue := nextValue value in
            if decide (columnField = "timestamp") then
              objSet columnField (getUtcDateString nextValue) conditions
            else if decide (columnField = "user") then
              let normalized := normalizeUserTag dataKey nextValue in
              objSet normalized.1 normalized.2 conditions
            else objSet columnField nextValue conditions
        | None => conditions
        end in
      match dataRow !! "tags" with
      | Some (VTags tags) =>
          match findTag tags dataKey with
          | Some tag =>
              let key :=
                if bool_decide (columnField ∈ URL_PARAM_values)
                then "tags[" +:+ columnField +:+ "]"
                else columnField in
              let tagValue := tag_value tag in
              if decide (key = "user") then
                let normalized := normalizeUserTag key tagValue in
                objSet normalized.1 normalized.2 (objDelete key conditions)
              else objSet key tagValue conditions
          | None => conditions
          end
      | _ => conditions
      end
  end.

Definition generateAdditionalConditions (eventView : Ref) (dataRow : option DataRow)
  : M (Obj string) :=
  match dataRow with
  | None => mret []
  | Some row =>
      v ← deref eventView;
      mret (fold_left (conditionsOfField row) (fields v) [])
  end.

(** The first loop of [generateExpandedConditions]. *)
Definition removeAggregates (parsedQuery : Obj (list string)) : Obj (list string) :=
  filter (fun kv => isFunction (explodeFieldString kv.1) = false) parsedQuery.

(** The body of its second loop, for the entry [key: value] of
    [conditions].  ([typeof value === 'string'] holds of every value of a
    [Record<string, string>].) *)
Definition applyCondition (eventView : Ref) (parsedQuery : Obj (list string))
    (entry : string * string) : M (Obj (list string)) :=
  let key := entry.1 in
  let value := entry.2 in
  if decide (key = "project.id") then
    assign eventView (fun v => setProject v (project v ++ [parseInt value]));;
    mret parsedQuery
  else if decide (key = "environment") then
    v ← deref eventView;
    (if bool_decide (value ∈ environment v) then mret tt
     else assign eventView (fun v => setEnvironment v (environment v ++ [value])));;
    mret parsedQuery
  else if decide (key = "user") then
    let normalized := normalizeUserTag key value in
    mret (objSet normalized.1 [normalized.2] parsedQuery)
  else
    match explodeFieldString key with
    | FunctionCol _ _ => mret parsedQuery
    | FieldCol _ => mret (objSet key [value] parsedQuery)
    end.

Definition generateExpandedConditions (eventView : Ref)
    (additionalConditions : Obj string) (dataRow : option DataRow) : M string :=
  v ← deref eventView;
  let parsedQuery := removeAggregates (tokenizeSearch (query v)) in
  generated ← generateAdditionalConditions eventView dataRow;
  let conditions := objAssign (objAssign [] additionalConditions) generated in
  parsedQuery ← forEachM (applyCondition eventView) conditions parsedQuery;
  mret (stringifyQueryObject parsedQuery).

Definition getExpandedResults (eventView : Ref)
    (additionalConditions : Obj string) (dataRow : option DataRow) : M Ref :=
  v ← deref eventView;
  let fieldsToUpdate := findAggregates 0 (fields v) in
  nextView ← clone eventView;
  st ← forEachM updateField fieldsToUpdate (nextView, ∅, []);
  let '(nextView, _, fieldsToDelete) := st in
  nextView ← forEachM withDeletedColumn (reverse fieldsToDelete) nextView;
  q ← generateExpandedConditions nextView additionalConditions dataRow;
  assign nextView (fun v => setQuery v q);;
  mret nextView.

(** [row[k]]: the value of the property, [undefined] without one. *)
Definition rowGet (row : DataRow) (k : string) : JsValue :=
  default VUndefined (row !! k).

(** The values the [user] column is resolved from, in the order of the
    [||] chain. *)
Definition userCandidates (row : DataRow) : list JsValue :=
  map (rowGet row) ["user"; "user.name"; "user.email"; "user.username"; "user.ip"].

(** The cell [downloadAsCsv] hands to the CSV writer for the column of
    heading [col]. *)
Definition csvCell (row : DataRow) (col : string) : JsValue :=
  let col := getAggregateAlias col in
  if decide (col = "user") then
    disableMacros
      (jsOr (jsOr (jsOr (jsOr (rowGet row "user") (rowGet row "user.name"))
                     (rowGet row "user.email"))
               (rowGet row "user.username"))
         (rowGet row "user.ip"))
  else disableMacros (rowGet row col).

(** The [data] [downloadAsCsv] hands to the CSV writer. *)
Definition csvData (data : list DataRow) (headings : list string) : list (list JsValue) :=
  map (fun row => map (csvCell row) headings) data.

End Utils.

(** ** The functional reading of the two passes

    What the index-based passes of [getExpandedResults] and the loop of
    [generateExpandedConditions] compute, as functions on lists; the
    theorems below prove the passes equal to them. *)

(** The queue of deletions is kept in ascending order. *)
Fixpoint ascending (l : list nat) : Prop :=
  match l with
  | [] => True
  | d :: l' => Forall (lt d) l' /\ ascending l'
  end.

(** What becomes of a flagged field. *)
Inductive Action : Type :=
| Replace (name : string)
| Delete.

Section Reading.
Context `{Imports}.

Definition fieldAction (transformedFields : gset string) (f0 f1 : string) : Action :=
  if isTransformAggregate f0 then
    match transformAggregate f0 with
    | TransformString name =>
        if String.eqb name "" || bool_decide (name ∈ transformedFields)
        then Delete else Replace name
    | TransformInherited _ => Delete
    end
  else if bool_decide (f1 ∈ transformedFields) then Delete
  else if String.eqb f0 "count" || String.eqb f1 "id" then Delete
  else if String.eqb f1 ""
          || (negb (Nat.eqb (length (from_option parameters [] (AGGREGATIONS !! f0))) 0)
              && forallb (fun p => match p with KindColumn => false | KindValue => true end)
                   (from_option parameters [] (AGGREGATIONS !! f0)))
  then Delete else Replace f1.

Fixpoint transformFields (transformedFields : gset string) (fs : list Field) : list Field :=
  match fs with
  | [] => []
  | f :: fs' =>
      match explodeFieldString (field f) with
      | FieldCol _ => f :: transformFields transformedFields fs'
      | FunctionCol f0 f1 =>
          match fieldAction transformedFields f0 f1 with
          | Replace name =>
              {| field := name; width := None |}
                :: transformFields ({[name]} ∪ transformedFields) fs'
          | Delete => transformFields transformedFields fs'
          end
      end
  end.


(** The conditions [generateExpandedConditions] merges for a view of
    fields [fs]. *)
Definition mergedConditions (fs : list Field) (additionalConditions : Obj string)
    (dataRow : option DataRow) : Obj string :=
  objAssign (objAssign [] additionalConditions)
    (match dataRow with
     | None => []
     | Some row => fold_left (conditionsOfField row) fs []
     end).

Definition conditionProjects (conditions : Obj string) : list JsNumber :=
  map (fun kv => parseInt kv.2) (filter (fun kv => kv.1 = "project.id") conditions).

Definition conditionEnvironments (env : list string) (conditions : Obj string) : list string :=
  fold_left (fun env kv =>
               if decide (kv.1 = "environment") then
                 if bool_decide (kv.2 ∈ env) then env else env ++ [kv.2]
               else env)
    conditions env.

Definition conditionQuery (parsedQuery : Obj (list string)) (conditions : Obj string)
  : Obj (list string) :=
  fold_left (fun pq kv =>
               if decide (kv.1 = "project.id") then pq
               else if decide (kv.1 = "environment") then pq
               else if decide (kv.1 = "user") then
                 objSet (normalizeUserTag kv.1 kv.2).1 [(normalizeUserTag kv.1 kv.2).2] pq
               else if isFunction (explodeFieldString kv.1) then pq
               else objSet kv.1 [kv.2] pq)
    conditions parsedQuery.

(** The view [getExpandedResults] returns for the view [v]. *)
Definition expandedView (v : EventView) (additionalConditions : Obj string)
    (dataRow : option DataRow) : EventView :=
  let fs := transformFields ∅ (fields v) in
  let conditions := mergedConditions fs additionalConditions dataRow in
  {| fields := fs;
     query := stringifyQueryObject
                (conditionQuery (removeAggregates (tokenizeSearch (query v))) conditions);
     project := project v ++ conditionProjects conditions;
     environment := conditionEnvironments (environment v) conditions |}.

(** A field that is no aggregate. *)
Definition isBare (f : Field) : Prop := isFunction (explodeFieldString (field f)) = false.



(** What the module relies on of the field codec: a bare field decodes
    to a reference to itself, and is its own alias. *)
Class ImportsLaws : Prop := {
  explodeFieldString_field :
    forall s n, explodeFieldString s = FieldCol n -> n = s;
  getAggregateAlias_field :
    forall s, explodeFieldString s = FieldCol s -> getAggregateAlias s = s
}.

End Reading.

Arguments ImportsLaws _ : clear implicits.

(** ** An instance of the imports

    The theorems below hold for every instance of [Imports]; the
    instance here serves to run the module on concrete views. *)

(** The string before and after the first occurrence of [sep]. *)
Fixpoint cutAt (sep : ascii) (s : string) : option (string * string) :=
  match s with
  | EmptyString => None
  | String c s' =>
      if Ascii.eqb c sep then Some (EmptyString, s')
      else match cutAt sep s' with
           | Some (a, b) => Some (String c a, b)
           | None => None
           end
  end.

(** The string without its last character, when that is [c]. *)
Fixpoint stripLast (c : ascii) (s : string) : option string :=
  match s with
  | EmptyString => None
  | String d EmptyString => if Ascii.eqb d c then Some EmptyString else None
  | String d s' => option_map (String d) (stripLast c s')
  end.

Definition replaceChar (a b : ascii) (s : string) : string :=
  string_of_list_ascii
    (map (fun c => if Ascii.eqb c a then b else c) (list_ascii_of_string s)).

(** Modelled from the spec: [explodeFieldString] of
    [app/utils/discover/fields] is not among the sources.  A field is
    "either a bare attribute name or an aggregate-function application",
    written [name(arguments)] as in [count()], [count(id)] and
    [p50()]: the name is the text before the first parenthesis, the
    column the first of the comma-separated arguments. *)
Definition explodeFieldString_model (fieldString : string) : Column :=
  match cutAt "(" fieldString with
  | Some (String c name, rest) =>
      match stripLast ")" rest with
      | Some arguments =>
          FunctionCol (String c name) (trimEnd (default "" (split "," arguments !! 0%nat)))
      | None => FieldCol fieldString
      end
  | _ => FieldCol fieldString
  end.

(** Modelled from the spec: [getAggregateAlias] is not among the
    sources.  "The externally-visible key for that field
    (aggregate-alias-stripped form)": a bare field is its own key; the
    key of an aggregate joins the name and the column by an underscore,
    with no dot in it. *)
Definition getAggregateAlias_model (fieldString : string) : string :=
  match explodeFieldString_model fieldString with
  | FieldCol _ => fieldString
  | FunctionCol f0 f1 =>
      if String.eqb f1 "" then f0 else f0 +:+ "_" +:+ replaceChar "." "_" f1
  end.

(** Modelled from the spec: the table [AGGREGATIONS] is not among the
    sources.  Some rows of it: each function with its "formal parameter
    list (each parameter tagged as accepting a column or a literal)". *)
Definition AGGREGATIONS_model : gmap string Aggregation :=
  <["count" := {| parameters := [] |}]>
  (<["count_unique" := {| parameters := [KindColumn] |}]>
  (<["min" := {| parameters := [KindColumn] |}]>
  (<["max" := {| parameters := [KindColumn] |}]>
  (<["avg" := {| parameters := [KindColumn] |}]>
  (<["apdex" := {| parameters := [KindValue] |}]>
  (<["percentile" := {| parameters := [KindColumn; KindValue] |}]> ∅)))))).

(** Modelled from the spec: [URL_PARAM] is not among the sources.  The
    "reserved scoping parameter names" of the page. *)
Definition URL_PARAM_values_model : list string :=
  ["start"; "end"; "utc"; "statsPeriod"; "project"; "environment"].

(** Modelled from the spec: [tokenizeSearch] is not among the sources.
    "A whitespace-tokenized sequence of key:value pairs", where
    "repeated keys become multi-valued lists" and other tokens are
    ignored; quoted values are left out. *)
Definition tokenizeSearch_model (query : string) : Obj (list string) :=
  fold_left (fun o token =>
               match cutAt ":" token with
               | Some (k, v) => objSet k (default [] (objGet o k) ++ [v]) o
               | None => o
               end)
    (String.words query) [].

(** Modelled from the spec: [stringifyQueryObject] is not among the
    sources.  The pairs, one [key:value] token for each value, separated
    by a space. *)
Definition stringifyQueryObject_model (o : Obj (list string)) : string :=
  join " " (flat_map (fun kv => map (fun v => kv.1 +:+ ":" +:+ v) kv.2) o).

(** Modelled from the spec: [getUtcDateString] is not among the sources.
    A stand-in that takes the date-time string to be canonical already. *)
Definition getUtcDateString_model (s : string) : string := s.

(** Modelled from the spec: [disableMacros] is not among the sources.
    The "macro-sanitization step": a string that a spreadsheet would read
    as a formula gets a leading quote. *)
Definition disableMacros_model (v : JsValue) : JsValue :=
  match v with
  | VString (String c s) =>
      if Ascii.eqb c "=" || Ascii.eqb c "+" || Ascii.eqb c "-" || Ascii.eqb c "@"
      then VString (String "'" (String c s)) else v
  | _ => v
  end.

#[local] Instance model : Imports := {|
  explodeFieldString := explodeFieldString_model;
  getAggregateAlias := getAggregateAlias_model;
  AGGREGATIONS := AGGREGATIONS_model;
  URL_PARAM_values := URL_PARAM_values_model;
  tokenizeSearch := tokenizeSearch_model;
  stringifyQueryObject := stringifyQueryObject_model;
  getUtcDateString := getUtcDateString_model;
  disableMacros := disableMacros_model
|}.

(** A view given by its fields and filter, and the store holding it at
    reference 0. *)
Definition viewOf (fs : list string) (q : string) : EventView :=
  {| fields := map (fun f => {| field := f; width := None |}) fs;
     query := q; project := []; environment := [] |}.

(** The fields and the filter of the view a computation returns. *)
Definition resultOf (m : M Ref) (st : Store) : option (list string * string) :=
  match m st with
  | Some (r, st') =>
      match st' !! r with
      | Some v => Some (map field (fields v), query v)
      | None => None
      end
  | None => None
  end.


Definition titleField : Field := {| field := "title"; width := None |}.

Definition taggedRow : DataRow :=
  <["tags" := VTags [{| tag_key := "title"; tag_value := "bar" |}]]>
    {["title" := VString "  foo  "]}.



Definition emptyUserRow : DataRow :=
  <["user" := VString ""]> {["user.email" := VString "a@example.com"]}.

(** ** The other functions of the module

    [decodeColumnOrder], [generateTitle], [getPrebuiltQueries],
    [pushEventViewToLocation] and [generateFieldOptions], with what they
    import beside [Imports]. *)

(** Of a row of [AGGREGATIONS], what [decodeColumnOrder] reads:
    [outputType] ([None]: null) and [isSortable]. *)
Record AggregationMeta : Type := { outputType : option string; isSortable : bool }.

Class PageImports : Type := {
  (** the table of the known fields and their types *)
  FIELDS : gmap string string;
  (** the rows of [AGGREGATIONS] *)
  AGGREGATIONS_meta : gmap string AggregationMeta;
  COL_WIDTH_UNDEFINED : Z;
  TRACING_FIELDS : list string;
  (** the translation of a message *)
  t : string -> string;
  Event : Type;
  (** [getTitle(event).title] *)
  getTitle_title : Event -> string;
  SavedView : Type;
  ALL_VIEWS : list SavedView;
  TRANSACTION_VIEWS : list SavedView
}.

(** A column of the table: [type] and [isSortable] may be [undefined]
    ([None]). *)
Record TableColumn : Type := {
  column_key : string;
  column_name : string;
  column_type : option string;
  column_isSortable : option bool;
  column_column : Column;
  column_width : Z
}.

(** The value of an option of the field picker:
    [{kind, meta: {name, parameters}}] of a function,
    [{kind, meta: {name, dataType}}] of a field or of a tag. *)
Inductive FieldValue (P : Type) : Type :=
| FunctionValue (name : string) (parameters : list P)
| FieldValueOf (name : string) (dataType : option string)
| TagValue (name : string) (dataType : string).
Arguments FunctionValue {P} _ _.
Arguments FieldValueOf {P} _ _.
Arguments TagValue {P} _ _.

Record SelectValue (P : Type) : Type := {
  option_label : string;
  option_value : FieldValue P
}.
Arguments option_label {P} _.
Arguments option_value {P} _.

Section Page.
Context `{Imports} `{PageImports}.

(** [f.width || COL_WIDTH_UNDEFINED]: an undefined width and the width 0
    are falsy. *)
Definition widthOrUndefined (w : option Z) : Z :=
  match w with
  | Some z => if z =? 0 then COL_WIDTH_UNDEFINED else z
  | None => COL_WIDTH_UNDEFINED
  end.

(** The column [decodeColumnOrder] makes of a field, from
    [TEMPLATE_TABLE_COLUMN]. *)
Definition decodeColumn (f : Field) : TableColumn :=
  let col := explodeFieldString (field f) in
  match col with
  | FunctionCol f0 f1 =>
      let aggregate := AGGREGATIONS_meta !! f0 in
      {| column_key := field f;
         column_name := field f;
         column_type :=
           match aggregate with
           | Some {| outputType := Some ty |} =>
               if String.eqb ty "" then
                 match FIELDS !! f1 with Some ty' => Some ty' | None => Some "never" end
               else Some ty
           | _ => match FIELDS !! f1 with Some ty' => Some ty' | None => Some "never" end
           end;
         column_isSortable :=
           match aggregate with
           | Some a => Some (isSortable a)
           | None => None
           end;
         column_column := col;
         column_width := widthOrUndefined (width f) |}
  | FieldCol name =>
      {| column_key := field f;
         column_name := field f;
         column_type := FIELDS !! name;
         column_isSortable := Some false;
         column_column := col;
         column_width := widthOrUndefined (width f) |}
  end.

Definition decodeColumnOrder (fs : list Field) : list TableColumn := map decodeColumn fs.

(** [generateTitle({eventView, event})], of [eventView.name] and the
    event when there is one. *)
Definition generateTitle (eventViewName : JsValue) (event : option Event) : string :=
  let titles := [t "Discover"] in
  let titles :=
    match eventViewName with
    | VString name =>
        if (0 <? String.length (trim name))%nat then titles ++ [trim name] else titles
    | _ => titles
    end in
  let titles :=
    match event with
    | Some e => if String.eqb (getTitle_title e) "" then titles
                else titles ++ [getTitle_title e]
    | None => titles
    end in
  join " - " (reverse titles).

(** [cloned.splice(2, 0, ...items)] *)
Definition spliceAt2 {A} (l items : list A) : list A := take 2 l ++ items ++ drop 2 l.

(** [getPrebuiltQueries(organization)], of [organization.features]. *)
Definition getPrebuiltQueries (features : list string) : list SavedView :=
  if bool_decide ("performance-view" ∈ features)
  then spliceAt2 ALL_VIEWS TRANSACTION_VIEWS
  else ALL_VIEWS.

(** The [query] of the location [pushEventViewToLocation] pushes:
    [{...extraQuery, ...queryStringObject}], where [queryStringObject]
    is what [nextEventView.generateQueryStringObject()] returns and a
    missing [extraQuery] is [{}]. *)
Definition pushedQuery {V} (extraQuery : option (Obj V)) (queryStringObject : Obj V) : Obj V :=
  objAssign (objAssign [] (default [] extraQuery)) queryStringObject.

(** [generateFieldOptions], of [organization.features], [tagKeys]
    ([None]: undefined or null), [aggregations] (each function with its
    [parameters]) and [fields]; [ellipsis] is the string of the one code
    unit U+2026, which is above the code units of the embedding. *)
Definition generateFieldOptions {P} (ellipsis : string) (features : list string)
    (tagKeys : option (list string)) (aggregations : Obj (list P)) (fields : Obj string)
  : Obj (SelectValue P) :=
  let fieldKeys := objKeys fields in
  let functions := objKeys aggregations in
  let fieldKeys :=
    if bool_decide ("performance-view" ∈ features) then fieldKeys
    else filter (fun item => item ∉ TRACING_FIELDS) fieldKeys in
  let functions :=
    if bool_decide ("performance-view" ∈ features) then functions
    else filter (fun item => item ∉ TRACING_FIELDS) functions in
  let fieldOptions : Obj (SelectValue P) := [] in
  let fieldOptions :=
    fold_left (fun fieldOptions func =>
                 let parameters := default [] (objGet aggregations func) in
                 let ellipsis := if (0 <? length parameters)%nat then ellipsis else "" in
                 objSet ("function:" +:+ func)
                   {| option_label := func +:+ "(" +:+ ellipsis +:+ ")";
                      option_value := FunctionValue func parameters |}
                   fieldOptions)
      functions fieldOptions in
  let fieldOptions :=
    fold_left (fun fieldOptions fld =>
                 objSet ("field:" +:+ fld)
                   {| option_label := fld;
                      option_value := FieldValueOf fld (objGet fields fld) |}
                   fieldOptions)
      fieldKeys fieldOptions in
  match tagKeys with
  | Some tagKeys =>
      fold_left (fun fieldOptions tag =>
                   let tagValue :=
                     if bool_decide (is_Some (objGet fields tag))
                        || bool_decide (is_Some (AGGREGATIONS !! tag))
                     then "tags[" +:+ tag +:+ "]" else tag in
                   objSet ("tag:" +:+ tag)
                     {| option_label := tag; option_value := TagValue tagValue "string" |}
                     fieldOptions)
        tagKeys fieldOptions
  | None => fieldOptions
  end.

End Page.

(** ** Sample tables of the page imports

    [FIELDS], the rows of [AGGREGATIONS], [COL_WIDTH_UNDEFINED],
    [TRACING_FIELDS], [t], [getTitle] and the prebuilt views are not
    among the sources; the examples run on these small tables, with the
    identity for the translation and an event standing for its title. *)

Definition FIELDS_sample : gmap string string :=
  <["title" := "string"]>
  (<["timestamp" := "date"]>
  (<["transaction.duration" := "duration"]>
  (<["trace" := "string"]> ∅))).

Definition AGGREGATIONS_meta_sample : gmap string AggregationMeta :=
  <["count" := {| outputType := Some "number"; isSortable := true |}]>
  (<["min" := {| outputType := None; isSortable := true |}]>
  (<["apdex" := {| outputType := Some "number"; isSortable := false |}]> ∅)).

#[local] Instance pageSample : PageImports := {|
  FIELDS := FIELDS_sample;
  AGGREGATIONS_meta := AGGREGATIONS_meta_sample;
  COL_WIDTH_UNDEFINED := -1;
  TRACING_FIELDS := ["trace"; "transaction.duration"; "apdex"];
  t := fun s => s;
  Event := string;
  getTitle_title := fun e => e;
  SavedView := string;
  ALL_VIEWS := ["all events"; "errors"; "csp"];
  TRANSACTION_VIEWS := ["transactions"; "slowest"]
|}.

(** The [fields] and [aggregations] handed to [generateFieldOptions] in
    the examples. *)
Definition sampleFields : Obj string :=
  [("title", "string"); ("trace", "string")].

Definition sampleAggregations : Obj (list ParameterKind) :=
  [("count", []); ("apdex", [KindValue])].


Definition stagingView : EventView :=
  {| fields := [titleField]; query := "count():>5 title:old";
     project := [Num 1]; environment := ["staging"] |}.

Definition sampleColumns : list Field :=
  [ {| field := "title"; width := Some 0 |};
    {| field := "count()"; width := Some 120 |};
    {| field := "custom"; width := None |} ].

(** * Properties *)

(** ** Runs of the embedding *)

Example explode_ex :
  explodeFieldString_model "count()" = FunctionCol "count" ""
  /\ explodeFieldString_model "min(count(id))" = FunctionCol "min" "count(id)"
  /\ explodeFieldString_model "percentile(transaction.duration, 0.5)"
     = FunctionCol "percentile" "transaction.duration"
  /\ explodeFieldString_model "title" = FieldCol "title".
Proof. repeat split; reflexivity. Qed.

Example tokenize_ex :
  tokenizeSearch_model "a:b foo a:c count():>5" = [("a", ["b"; "c"]); ("count()", [">5"])]
  /\ stringifyQueryObject_model [("a", ["b"; "c"]); ("x", ["y"])] = "a:b a:c x:y".
Proof. split; vm_compute; reflexivity. Qed.

Example expand_ex1 :
  resultOf (getExpandedResults 0%nat [] None)
    [viewOf ["count()"; "last_seen()"; "title"; "custom_tag"] "event.type:error"]
  = Some (["timestamp"; "title"; "custom_tag"], "event.type:error").
Proof. vm_compute. reflexivity. Qed.

Example expand_ex2 :
  resultOf (getExpandedResults 0%nat [] None)
    [viewOf ["transaction.duration"; "p50()"; "p95()"; "min(count(id))"; "apdex(300)"] ""]
  = Some (["transaction.duration"; "transaction.duration"; "count(id)"], "").
Proof. vm_compute. reflexivity. Qed.

Example split_ex1 : split ":" "id:12:34" = ["id"; "12"; "34"].
Proof. reflexivity. Qed.
Example split_ex2 : split ":" "" = [""].
Proof. reflexivity. Qed.
Example trim_ex : trim "  foo bar  " = "foo bar".
Proof. reflexivity. Qed.
Example parseInt_ex1 : parseInt " -12px" = Num (-12).
Proof. reflexivity. Qed.
Example parseInt_ex2 : parseInt "abc" = NaN.
Proof. reflexivity. Qed.
Example parseInt_ex3 :
  parseInt "9007199254740993" = Num 9007199254740992
  /\ parseInt "-0" = NegZero
  /\ parseInt ("-" +:+ decimal (2 ^ 1024)) = Infinity true.
Proof. vm_compute. done. Qed.
Example toString_ex : toString (VNumber (Num (-120))) = "-120" /\ toString (VNumber (Num 0)) = "0".
Proof. split; vm_compute; reflexivity. Qed.
Example transformAggregate_ex :
  transformAggregate "valueOf" = TransformInherited "valueOf"
  /\ isTransformAggregate "constructor" = true
  /\ transformAggregate "apdex" = TransformString ""
  /\ isTransformAggregate "count" = false.
Proof. vm_compute. done. Qed.
Example toString_ex2 :
  numberToString (Num (2 ^ 53)) = "9007199254740992"
  /\ numberToString (Num (2 ^ 64)) = "18446744073709552000"
  /\ numberToString (Num (10 ^ 21)) = "1e+21"
  /\ numberToString (Num (- (2 ^ 70))) = "-1.1805916207174113e+21".
Proof. vm_compute. done. Qed.


(** ** Strings *)

Lemma split_nonempty sep s : split sep s <> [].
Proof. destruct s as [|c s]; simpl; [done|]. destruct (Ascii.eqb c sep); [done|]. by destruct (split sep s). Qed.

(** Without the separator there is one piece, the string itself. *)
Lemma split_without sep s :
  existsChar (fun c => Ascii.eqb c sep) s = false -> split sep s = [s].
Proof.
  induction s as [|c s IH]; simpl; [done|].
  destruct (Ascii.eqb c sep); simpl; [done|].
  intros Hs. by rewrite (IH Hs).
Qed.

(** The first piece is what stands before the first separator, and the
    other pieces are those of what stands after it. *)
Lemma split_first sep a b :
  existsChar (fun c => Ascii.eqb c sep) a = false ->
  split sep (a +:+ String sep b) = a :: split sep b.
Proof.
  induction a as [|c a IH]; simpl.
  - intros _. by rewrite Ascii.eqb_refl.
  - destruct (Ascii.eqb c sep) eqn:Hc; simpl; [done|].
    intros Ha. change (String.append a (String sep b)) with (a +:+ String sep b).
    by rewrite (IH Ha).
Qed.

Lemma normalizeUserTag_without key value :
  existsChar (fun c => Ascii.eqb c ":") value = false ->
  normalizeUserTag key value = (key, value).
Proof.
  intros Hv. unfold normalizeUserTag, splitLimit. by rewrite (split_without _ _ Hv).
Qed.

(** With a colon, the sub-key is what stands before the first colon and
    the value is the second piece only: what stands between the first
    colon and the next one. *)
Lemma normalizeUserTag_with key a b :
  existsChar (fun c => Ascii.eqb c ":") a = false ->
  normalizeUserTag key (a +:+ String ":" b)
  = (key +:+ "." +:+ a, default "" (split ":" b !! 0%nat)).
Proof.
  intros Ha. unfold normalizeUserTag, splitLimit. rewrite (split_first _ _ _ Ha).
  pose proof (split_nonempty ":" b) as Hb.
  destruct (split ":" b) as [|p ps]; [done|]. reflexivity.
Qed.

(** The key [normalizeUserTag] returns is the key it is given, or that
    key, a dot and a sub-key. *)
Lemma normalizeUserTag_key key value :
  (normalizeUserTag key value).1 = key
  \/ exists a, (normalizeUserTag key value).1 = key +:+ "." +:+ a.
Proof.
  unfold normalizeUserTag. destruct (splitLimit ":" 2 value) as [|p0 [|p1 [|p2 ps]]]; eauto.
Qed.

Lemma normalizeUserTag_key_ne key value k :
  k <> key -> (forall a, k <> key +:+ "." +:+ a) -> (normalizeUserTag key value).1 <> k.
Proof.
  intros Hk Hka. destruct (normalizeUserTag_key key value) as [->|[a ->]]; [done|].
  intros Heq. by eapply Hka.
Qed.

(** ** Objects *)

Section ObjectLemmas.
Context {V : Type}.
Implicit Types (o : Obj V) (k : string) (v : V).

Lemma objGet_app o1 o2 k :
  objGet (o1 ++ o2) k = match objGet o1 k with Some v => Some v | None => objGet o2 k end.
Proof.
  induction o1 as [|[k' v'] o1 IH]; simpl; [done|]. by destruct (decide (k' = k)).
Qed.

Lemma objGet_objReplace_eq o k v :
  is_Some (objGet o k) -> objGet (objReplace k v o) k = Some v.
Proof.
  induction o as [|[k' v'] o IH]; simpl; intros [x Hx]; [done|].
  destruct (decide (k' = k)) as [->|Hne]; simpl.
  - by rewrite decide_True.
  - rewrite decide_False by done. eauto.
Qed.

Lemma objGet_objReplace_ne o k k' v :
  k <> k' -> objGet (objReplace k v o) k' = objGet o k'.
Proof.
  intros Hne. induction o as [|[k0 v0] o IH]; simpl; [done|].
  destruct (decide (k0 = k)) as [->|Hk0]; simpl.
  - by rewrite !decide_False.
  - destruct (decide (k0 = k')); [done|]. apply IH.
Qed.

Lemma objGet_objInsertIndex_eq n o k v :
  objGet o k = None -> objGet (objInsertIndex n k v o) k = Some v.
Proof.
  induction o as [|[k' v'] o IH]; simpl; intros Hk.
  - by rewrite decide_True.
  - destruct (decide (k' = k)) as [|Hne]; [done|].
    destruct (arrayIndex k') as [n'|]; [destruct (n' <? n)%N|]; simpl;
      rewrite ?decide_True, ?decide_False by done; auto.
Qed.

Lemma objGet_objInsertIndex_ne n o k k' v :
  k <> k' -> objGet (objInsertIndex n k v o) k' = objGet o k'.
Proof.
  intros Hne. induction o as [|[k0 v0] o IH]; simpl.
  - by rewrite decide_False.
  - destruct (arrayIndex k0) as [n'|]; [destruct (n' <? n)%N|]; simpl;
      rewrite ?(decide_False (P := k = k')) by done; [|done..].
    destruct (decide (k0 = k')); [done|]. apply IH.
Qed.

Lemma objGet_objSet_eq o k v : objGet (objSet k v o) k = Some v.
Proof.
  unfold objSet. destruct (objGet o k) as [x|] eqn:Hk.
  - apply objGet_objReplace_eq. eauto.
  - destruct (arrayIndex k) as [n|].
    + by apply objGet_objInsertIndex_eq.
    + rewrite objGet_app, Hk. simpl. by rewrite decide_True.
Qed.

Lemma objGet_objSet_ne o k k' v : k <> k' -> objGet (objSet k v o) k' = objGet o k'.
Proof.
  intros Hne. unfold objSet. destruct (objGet o k) as [x|] eqn:Hk.
  - by apply objGet_objReplace_ne.
  - destruct (arrayIndex k) as [n|].
    + by apply objGet_objInsertIndex_ne.
    + rewrite objGet_app. simpl. rewrite decide_False by done. by destruct (objGet o k').
Qed.



Lemma objGet_None_not_in o k : objGet o k = None <-> k ∉ objKeys o.
Proof.
  unfold objKeys. induction o as [|[k' v'] o IH]; simpl.
  - split; [intros _; apply not_elem_of_nil|done].
  - rewrite not_elem_of_cons. destruct (decide (k' = k)) as [->|Hne].
    + split; [done|]. by intros [? _].
    + rewrite IH. split; [intros ?; split; congruence|by intros [_ ?]].
Qed.

End ObjectLemmas.

(** ** The store *)

Lemma bind_run {A B} (m : M A) (k : A -> M B) (st : Store) :
  (m ≫= k) st = match m st with Some (a, st') => k a st' | None => None end.
Proof. reflexivity. Qed.

Lemma ret_run {A} (a : A) (st : Store) : (mret a : M A) st = Some (a, st).
Proof. reflexivity. Qed.

Lemma deref_run r (st : Store) v : st !! r = Some v -> deref r st = Some (v, st).
Proof. unfold deref. by intros ->. Qed.

Lemma assign_run r f (st : Store) v :
  st !! r = Some v -> assign r f st = Some (tt, <[r := f v]> st).
Proof. unfold assign. by intros ->. Qed.

Lemma alloc_lookup (st : Store) v : (st ++ [v]) !! length st = Some v.
Proof. by rewrite lookup_app_r, Nat.sub_diag. Qed.

Lemma clone_run r (st : Store) v :
  st !! r = Some v -> clone r st = Some (length st, st ++ [v]).
Proof. intros Hr. unfold clone. by rewrite bind_run, (deref_run _ _ _ Hr). Qed.

Lemma withUpdatedColumn_run r i col (st : Store) v :
  st !! r = Some v ->
  withUpdatedColumn r i col st
  = Some (length st,
          st ++ [setFields v (<[i := {| field := generateFieldAsString col; width := None |}]>
                                (fields v))]).
Proof. intros Hr. unfold withUpdatedColumn. by rewrite bind_run, (deref_run _ _ _ Hr). Qed.

Lemma withDeletedColumn_run r i (st : Store) v :
  st !! r = Some v ->
  withDeletedColumn r i st = Some (length st, st ++ [setFields v (delete i (fields v))]).
Proof. intros Hr. unfold withDeletedColumn. by rewrite bind_run, (deref_run _ _ _ Hr). Qed.

(** ** The table of transforms *)

Lemma isTransformAggregate_empty : isTransformAggregate "" = false.
Proof. reflexivity. Qed.



(** ** The pass over the flagged fields *)

Section Passes.
Context `{Imports}.

(** One round of the pass at an aggregate field does what [fieldAction]
    says: the field is replaced in a new view, or its index is queued for
    deletion. *)
Lemma updateField_run (st : Store) r v pre f rest f0 f1 tf del :
  st !! r = Some v ->
  fields v = pre ++ f :: rest ->
  explodeFieldString (field f) = FunctionCol f0 f1 ->
  updateField (r, tf, del) (length pre) st
  = match fieldAction tf f0 f1 with
    | Replace name =>
        Some ((length st, {[name]} ∪ tf, del),
              st ++ [setFields v (pre ++ {| field := name; width := None |} :: rest)])
    | Delete => Some ((r, tf, del ++ [length pre]), st)
    end.
Proof.
  intros Hr Hfs Hf. unfold updateField, fieldAction.
  rewrite bind_run, (deref_run _ _ _ Hr), bind_run. simpl.
  assert (fields v !! length pre = Some f) as ->.
  { rewrite Hfs. by rewrite list_lookup_middle. }
  simpl. rewrite Hf.
  assert (forall name,
    <[length pre := {| field := name; width := None |}]> (fields v)
    = pre ++ {| field := name; width := None |} :: rest) as Hins.
  { intros name. rewrite Hfs. rewrite insert_app_r_alt by lia.
    by rewrite Nat.sub_diag. }
  destruct (isTransformAggregate f0) eqn:Ht.
  - rewrite Ht. destruct (transformAggregate f0) as [name|member]; [|done].
    destruct (String.eqb name "" || bool_decide (name ∈ tf)); [done|].
    rewrite bind_run, (withUpdatedColumn_run _ _ _ _ _ Hr). simpl. by rewrite Hins.
  - rewrite isTransformAggregate_empty.
    destruct (bool_decide (f1 ∈ tf)); [done|].
    destruct (String.eqb f0 "count" || String.eqb f1 "id"); [done|].
    destruct (AGGREGATIONS !! f0) as [a|]; simpl.
    + destruct (String.eqb f1 "" || _); [done|].
      rewrite bind_run, (withUpdatedColumn_run _ _ _ _ _ Hr). simpl. by rewrite Hins.
    + rewrite orb_false_r. destruct (String.eqb f1 ""); [done|].
      rewrite bind_run, (withUpdatedColumn_run _ _ _ _ _ Hr). simpl. by rewrite Hins.
Qed.

Lemma ascending_snoc l i : ascending l -> Forall (fun d => d < i)%nat l -> ascending (l ++ [i]).
Proof.
  induction l as [|d l IH]; simpl.
  - intros _ _. split; [constructor|done].
  - intros [Hd Hl] Hi. apply Forall_cons in Hi as [Hdi Hi]. split; [|by apply IH].
    apply Forall_app. split; [done|]. by constructor.
Qed.

(** Deleting in descending order at ascending indices within range
    removes one field each time. *)
Lemma deleteAll_length {A} (fs : list A) del :
  ascending del -> Forall (fun d => d < length fs)%nat del ->
  length (foldr delete fs del) = (length fs - length del)%nat
  /\ match del with
     | d :: _ => (d + length del <= length fs)%nat
     | [] => True
     end.
Proof.
  induction del as [|d del IH]; simpl.
  - intros _ _. split; [lia|done].
  - intros [Hd Hdel] Hr. apply Forall_cons in Hr as [Hdr Hr].
    destruct (IH Hdel Hr) as [Hlen Hhd].
    assert (d + S (length del) <= length fs)%nat as Hbound.
    { destruct del as [|d' del']; simpl in *; [lia|].
      apply Forall_cons in Hd as [Hdd' _]. lia. }
    split; [|done]. rewrite length_delete.
    + rewrite Hlen. lia.
    + apply lookup_lt_is_Some. rewrite Hlen. lia.
Qed.

Lemma delete_app_l {A} (l1 l2 : list A) i :
  (i < length l1)%nat -> delete i (l1 ++ l2) = delete i l1 ++ l2.
Proof.
  revert i. induction l1 as [|x l1 IH]; intros i Hi; simpl in *; [lia|].
  destruct i as [|i]; [done|]. simpl. f_equal. apply IH. lia.
Qed.

Lemma deleteAll_app {A} (pre rest : list A) del :
  ascending del -> Forall (fun d => d < length pre)%nat del ->
  foldr delete (pre ++ rest) del = foldr delete pre del ++ rest.
Proof.
  induction del as [|d del IH]; simpl; [done|].
  intros [Hd Hdel] Hr. apply Forall_cons in Hr as [Hdr Hr].
  rewrite (IH Hdel Hr). apply delete_app_l.
  destruct (deleteAll_length pre del Hdel Hr) as [Hlen Hhd]. rewrite Hlen.
  destruct del as [|d' del']; simpl in *; [lia|].
  apply Forall_cons in Hd as [Hdd' _]. lia.
Qed.

Lemma deleteAll_snoc {A} (pre : list A) x del :
  foldr delete (pre ++ [x]) (del ++ [length pre]) = foldr delete pre del.
Proof. rewrite foldr_app. simpl. by rewrite delete_middle, app_nil_r. Qed.

(** The pass over the flagged fields, from any point of the field list:
    once its deletions are applied, the fields are those [transformFields]
    gives.  The view it ends with is the one it started with or a new
    one. *)
Lemma updateFields_run rest : forall pre tf del r (st : Store) v,
  st !! r = Some v ->
  fields v = pre ++ rest ->
  ascending del ->
  Forall (fun d => d < length pre)%nat del ->
  exists r' tf' del' st' fs',
    forEachM updateField (findAggregates (length pre) rest) (r, tf, del) st
    = Some ((r', tf', del'), st')
    /\ st `prefix_of` st'
    /\ (r <= r')%nat
    /\ st' !! r' = Some (setFields v fs')
    /\ foldr delete fs' del' = foldr delete pre del ++ transformFields tf rest.
Proof.
  induction rest as [|f rest IH]; intros pre tf del r st v Hr Hfs Hasc Hdel.
  - simpl. exists r, tf, del, st, pre. rewrite app_nil_r in *.
    split_and!; [done|done|lia| |done].
    rewrite Hr. f_equal. destruct v; simpl in *. by subst.
  - cbn [findAggregates].
    destruct (explodeFieldString (field f)) as [n|f0 f1] eqn:Hf; cbn [isFunction forEachM].
    + destruct (IH (pre ++ [f]) tf del r st v Hr) as (r'&tf'&del'&st'&fs'&Hrun&?&?&?&Hfold).
      { by rewrite <-app_assoc. }
      { done. }
      { eapply Forall_impl; [done|]. intros d Hd. simpl in Hd. rewrite length_app. simpl. lia. }
      rewrite length_app, Nat.add_1_r in Hrun.
      exists r', tf', del', st', fs'. split_and!; [done..|].
      cbn [transformFields]. rewrite Hf.
      rewrite Hfold, (deleteAll_app _ _ _ Hasc Hdel), <-app_assoc. done.
    + cbn [transformFields]. rewrite Hf.
      rewrite bind_run, (updateField_run _ _ _ _ _ _ _ _ _ _ Hr Hfs Hf).
      destruct (fieldAction tf f0 f1) as [name|] eqn:Hact.
      * set (v1 := setFields v (pre ++ {| field := name; width := None |} :: rest)).
        destruct (IH (pre ++ [{| field := name; width := None |}]) ({[name]} ∪ tf) del
                    (length st) (st ++ [v1]) v1)
          as (r'&tf'&del'&st'&fs'&Hrun&Hpre&Hle&Hv&Hfold).
        { apply alloc_lookup. }
        { simpl. by rewrite <-app_assoc. }
        { done. }
        { eapply Forall_impl; [done|]. intros d Hd. simpl in Hd. rewrite length_app. simpl. lia. }
        rewrite length_app, Nat.add_1_r in Hrun.
        exists r', tf', del', st', fs'. split_and!.
        -- done.
        -- etrans; [|done]. by apply prefix_app_r.
        -- apply lookup_lt_Some in Hr. lia.
        -- done.
        -- rewrite Hfold, (deleteAll_app _ _ _ Hasc Hdel), <-app_assoc. done.
      * destruct (IH (pre ++ [f]) tf (del ++ [length pre]) r st v Hr)
          as (r'&tf'&del'&st'&fs'&Hrun&?&?&?&Hfold).
        { by rewrite <-app_assoc. }
        { by apply ascending_snoc. }
        { apply Forall_app. split.
          - eapply Forall_impl; [done|]. intros d Hd. simpl in Hd. rewrite length_app. simpl. lia.
          - constructor; [|done]. rewrite length_app. simpl. lia. }
        rewrite length_app, Nat.add_1_r in Hrun.
        exists r', tf', del', st', fs'. split_and!; [done..|].
        by rewrite Hfold, deleteAll_snoc.
Qed.

(** The deletions: each gives a new view. *)
Lemma deleteColumns_run idxs : forall r (st : Store) v,
  st !! r = Some v ->
  exists r' st',
    forEachM withDeletedColumn idxs r st = Some (r', st')
    /\ st `prefix_of` st'
    /\ (r <= r')%nat
    /\ st' !! r' = Some (setFields v (foldr delete (fields v) (reverse idxs))).
Proof.
  induction idxs as [|i idxs IH]; intros r st v Hr.
  - exists r, st. simpl. split_and!; [done|done|lia|]. rewrite Hr. by destruct v.
  - simpl. rewrite bind_run, (withDeletedColumn_run _ _ _ _ Hr).
    destruct (IH (length st) (st ++ [setFields v (delete i (fields v))]) _ (alloc_lookup _ _))
      as (r'&st'&Hrun&Hpre&Hle&Hv).
    exists r', st'. split_and!.
    + done.
    + etrans; [|done]. by apply prefix_app_r.
    + apply lookup_lt_Some in Hr. lia.
    + rewrite Hv. simpl. by rewrite reverse_cons, foldr_app.
Qed.

Lemma prefix_insert_ge {A} (l1 l2 : list A) i x :
  l1 `prefix_of` l2 -> (length l1 <= i)%nat -> l1 `prefix_of` <[i := x]> l2.
Proof.
  intros [k ->] Hi. rewrite insert_app_r_alt by done. by apply prefix_app_r.
Qed.

(** The loop over the merged conditions writes the two scope lists of
    the view it is given, and nothing else in the store. *)
Lemma applyConditions_run conditions : forall pq r (st : Store) v,
  st !! r = Some v ->
  forEachM (applyCondition r) conditions pq st
  = Some (conditionQuery pq conditions,
          <[r := {| fields := fields v; query := query v;
                    project := project v ++ conditionProjects conditions;
                    environment := conditionEnvironments (environment v) conditions |}]> st).
Proof.
  induction conditions as [|[key value] conditions IH]; intros pq r st v Hr.
  - cbn. rewrite app_nil_r, ret_run. f_equal. f_equal. symmetry.
    apply list_insert_id. rewrite Hr. by destruct v.
  - cbn [forEachM]. rewrite bind_run. unfold applyCondition at 1. cbn [fst snd].
    unfold conditionProjects, conditionEnvironments, conditionQuery.
    rewrite filter_cons. cbn [fold_left fst snd].
    destruct (decide (key = "project.id")) as [->|Hp].
    { rewrite bind_run, (assign_run _ _ _ _ Hr), ret_run.
      simpl decide. cbn [map fst snd].
      erewrite IH; [|apply list_lookup_insert_eq; by eapply lookup_lt_Some].
      rewrite list_insert_insert_eq. cbn [fields query project environment setProject].
      unfold conditionProjects, conditionEnvironments, conditionQuery.
      by rewrite <-app_assoc. }
    destruct (decide (key = "environment")) as [->|He].
    { rewrite bind_run, (deref_run _ _ _ Hr), bind_run.
      destruct (bool_decide (value ∈ environment v)) eqn:Hin.
      - rewrite ret_run, ret_run. by rewrite (IH _ _ _ _ Hr).
      - rewrite (assign_run _ _ _ _ Hr), ret_run.
        erewrite IH; [|apply list_lookup_insert_eq; by eapply lookup_lt_Some].
        by rewrite list_insert_insert_eq. }
    destruct (decide (key = "user")) as [->|Hu].
    { rewrite ret_run. by rewrite (IH _ _ _ _ Hr). }
    destruct (explodeFieldString key) as [n|f0 f1]; cbn [isFunction];
      rewrite ret_run; by rewrite (IH _ _ _ _ Hr).
Qed.

Lemma generateAdditionalConditions_run r (st : Store) v dataRow :
  st !! r = Some v ->
  generateAdditionalConditions r dataRow st
  = Some (match dataRow with
          | None => []
          | Some row => fold_left (conditionsOfField row) (fields v) []
          end, st).
Proof.
  intros Hr. destruct dataRow as [row|]; [|done].
  unfold generateAdditionalConditions. by rewrite bind_run, (deref_run _ _ _ Hr).
Qed.

Lemma generateExpandedConditions_run r (st : Store) v additionalConditions dataRow :
  st !! r = Some v ->
  generateExpandedConditions r additionalConditions dataRow st
  = let conditions := mergedConditions (fields v) additionalConditions dataRow in
    Some (stringifyQueryObject
            (conditionQuery (removeAggregates (tokenizeSearch (query v))) conditions),
          <[r := {| fields := fields v; query := query v;
                    project := project v ++ conditionProjects conditions;
                    environment := conditionEnvironments (environment v) conditions |}]> st).
Proof.
  intros Hr. unfold generateExpandedConditions.
  rewrite bind_run, (deref_run _ _ _ Hr), bind_run.
  rewrite (generateAdditionalConditions_run _ _ _ _ Hr), bind_run.
  by rewrite (applyConditions_run _ _ _ _ _ Hr).
Qed.

(** [getExpandedResults] returns, and what it returns is a view of the
    state [expandedView] gives, in a store that extends the one it was
    called in. *)
Theorem getExpandedResults_run r (st : Store) v additionalConditions dataRow :
  st !! r = Some v ->
  exists r' st',
    getExpandedResults r additionalConditions dataRow st = Some (r', st')
    /\ st `prefix_of` st'
    /\ (length st <= r')%nat
    /\ st' !! r' = Some (expandedView v additionalConditions dataRow).
Proof.
  intros Hr. unfold getExpandedResults.
  rewrite bind_run, (deref_run _ _ _ Hr), bind_run, (clone_run _ _ _ Hr), bind_run.
  destruct (updateFields_run (fields v) [] ∅ [] (length st) (st ++ [v]) v)
    as (r1&tf1&del1&st1&fs1&Hrun1&Hpre1&Hle1&Hv1&Hfold1);
    [apply alloc_lookup|done|done|done|].
  cbn [length] in Hrun1. rewrite Hrun1, bind_run.
  destruct (deleteColumns_run (reverse del1) r1 st1 _ Hv1) as (r2&st2&Hrun2&Hpre2&Hle2&Hv2).
  rewrite Hrun2. cbv beta iota. rewrite bind_run.
  rewrite reverse_involutive in Hv2. cbn [fields setFields] in Hv2.
  rewrite Hfold1 in Hv2. cbn [foldr app] in Hv2.
  rewrite (generateExpandedConditions_run _ _ _ _ _ Hv2). cbv beta iota zeta.
  rewrite bind_run. erewrite assign_run;
    [|apply list_lookup_insert_eq; by eapply lookup_lt_Some].
  rewrite ret_run, list_insert_insert_eq.
  eexists _, _. split; [done|]. split_and!.
  - apply prefix_insert_ge.
    + etrans; [|done]. etrans; [|done]. by apply prefix_app_r.
    + lia.
  - lia.
  - rewrite list_lookup_insert_eq by (by eapply lookup_lt_Some). done.
Qed.

End Passes.

(** ** The claims about [getExpandedResults] *)

Section Expansion.
Context `{Imports}.


(** A list of bare fields goes through the pass as it is. *)
Lemma transformFields_all_bare fs tf : Forall isBare fs -> transformFields tf fs = fs.
Proof.
  induction 1 as [|f fs Hf Hfs IH]; cbn [transformFields]; [done|].
  unfold isBare in Hf. destruct (explodeFieldString (field f)); [|done]. by rewrite IH.
Qed.


(** C2, as amended.  For every view whose fields are all bare, called
    with no data row and an empty conditions mapping,
    [getExpandedResults] returns a view with the same field list and the
    same scope lists, whose filter is the parsed filter of the input
    without its aggregate-keyed conditions, serialised again: the filter
    string is unchanged when no condition of it is keyed by an aggregate
    and the serialiser gives back the string the filter was parsed
    from. *)
Theorem C2_bare_fields_no_row r (st : Store) v :
  st !! r = Some v ->
  Forall isBare (fields v) ->
  exists r' st' v',
    getExpandedResults r [] None st = Some (r', st')
    /\ st' !! r' = Some v'
    /\ r' <> r
    /\ fields v' = fields v
    /\ project v' = project v
    /\ environment v' = environment v
    /\ query v' = stringifyQueryObject (removeAggregates (tokenizeSearch (query v)))
    /\ (removeAggregates (tokenizeSearch (query v)) = tokenizeSearch (query v) ->
        stringifyQueryObject (tokenizeSearch (query v)) = query v ->
        query v' = query v).
Proof.
  intros Hr Hbare.
  destruct (getExpandedResults_run r st v [] None Hr) as (r'&st'&Hrun&Hpre&Hle&Hv').
  exists r', st', (expandedView v [] None).
  assert (r' <> r) as Hne by (apply lookup_lt_Some in Hr; lia).
  split_and!; [done|done|done|..].
  - cbn [expandedView fields]. by apply transformFields_all_bare.
  - cbn. by rewrite app_nil_r.
  - done.
  - done.
  - intros Hagg Hround. cbn. by rewrite Hagg.
Qed.





End Expansion.

(** ** The claims about the conditions *)

Section ObjectKeys.
Context {V : Type}.
Implicit Types (o : Obj V) (k : string) (v : V).

Lemma objKeys_objReplace o k v : objKeys (objReplace k v o) = objKeys o.
Proof.
  unfold objKeys. induction o as [|[k' v'] o IH]; simpl; [done|].
  destruct (decide (k' = k)) as [->|]; simpl; [done|]. by rewrite IH.
Qed.

Lemma objKeys_objInsertIndex n o k v : objKeys (objInsertIndex n k v o) ≡ₚ k :: objKeys o.
Proof.
  unfold objKeys. induction o as [|[k' v'] o IH]; simpl; [done|].
  destruct (arrayIndex k') as [n'|]; [destruct (n' <? n)%N|]; simpl; [|done..].
  rewrite IH. apply Permutation_swap.
Qed.

(** An object has one property of a name: writes keep that. *)
Lemma NoDup_objSet o k v : NoDup (objKeys o) -> NoDup (objKeys (objSet k v o)).
Proof.
  intros Hnd. unfold objSet. destruct (objGet o k) as [x|] eqn:Hk.
  - by rewrite objKeys_objReplace.
  - apply objGet_None_not_in in Hk. destruct (arrayIndex k) as [n|].
    + rewrite objKeys_objInsertIndex. by constructor.
    + unfold objKeys in *. rewrite map_app. simpl.
      apply NoDup_app. split_and!; [done| |apply NoDup_singleton].
      intros x Hx ->%list_elem_of_singleton. done.
Qed.

Lemma NoDup_objAssign (source : Obj V) : forall target : Obj V,
  NoDup (objKeys target) -> NoDup (objKeys (objAssign target source)).
Proof.
  unfold objAssign. induction source as [|[k v] source IH]; intros target Hnd; simpl; [done|].
  apply IH. by apply NoDup_objSet.
Qed.



End ObjectKeys.

Section Conditions.
Context `{Imports}.

Lemma NoDup_mergedConditions fs additionalConditions dataRow :
  NoDup (objKeys (mergedConditions fs additionalConditions dataRow)).
Proof.
  unfold mergedConditions. apply NoDup_objAssign, NoDup_objAssign. constructor.
Qed.











End Conditions.

(** ** The claims about [normalizeUserTag] and the CSV cells *)

(** C4.  At the value [id:12:34] the split keeps the first two of the
    three pieces: the condition is [user.id] with the value [12], and
    what stands after the second colon is lost. *)
Theorem C4_second_piece_only :
  splitLimit ":" 2 "id:12:34" = ["id"; "12"]
  /\ normalizeUserTag "user" "id:12:34" = ("user.id", "12")
  /\ fold_left (conditionsOfField {["user" := VString "id:12:34"]})
       [{| field := "user"; width := None |}] []
     = [("user.id", "12")].
Proof. split_and!; vm_compute; reflexivity. Qed.

Section Csv.
Context `{Imports}.

(** C10.  For a column whose alias is [user], the cell is the first
    truthy value among the [user], [user.name], [user.email],
    [user.username] and [user.ip] properties of the row, in that order
    (handed to [disableMacros]); and a row whose [user] is the empty
    string gives the cell the same row without a [user] property
    gives. *)
Theorem C10_csv_user_column (row : DataRow) col :
  getAggregateAlias col = "user" ->
  (forall x, List.find truthy (userCandidates row) = Some x ->
             csvCell row col = disableMacros x)
  /\ (row !! "user" = Some (VString "") ->
      csvCell row col = csvCell (delete "user" row) col).
Proof.
  intros Hcol. unfold csvCell. rewrite Hcol. rewrite decide_True by done. split.
  - unfold userCandidates. cbn [map List.find].
    set (a := rowGet row "user"). set (b := rowGet row "user.name").
    set (c := rowGet row "user.email"). set (d := rowGet row "user.username").
    set (e := rowGet row "user.ip"). intros x.
    unfold jsOr. destruct (truthy a) eqn:Ha; cbv beta iota.
    { rewrite !Ha. by intros [= <-]. }
    destruct (truthy b) eqn:Hb; cbv beta iota.
    { rewrite !Hb. by intros [= <-]. }
    destruct (truthy c) eqn:Hc; cbv beta iota.
    { rewrite !Hc. by intros [= <-]. }
    destruct (truthy d) eqn:Hd; cbv beta iota.
    { by intros [= <-]. }
    destruct (truthy e) eqn:He; [by intros [= <-]|done].
  - intros Hu. unfold rowGet. rewrite Hu, lookup_delete_eq.
    rewrite !lookup_delete_ne by done. done.
Qed.

End Csv.

(** ** The claims at concrete views *)

(** The instance of the imports has the laws of the codec. *)
#[local] Instance model_laws : ImportsLaws model.
Proof.
  split.
  - intros s n. cbn [explodeFieldString model]. unfold explodeFieldString_model.
    destruct (cutAt "(" s) as [[[|c name] rest]|]; try congruence.
    destruct (stripLast ")" rest); congruence.
  - intros s Hs. cbn [explodeFieldString getAggregateAlias model] in *.
    unfold getAggregateAlias_model. by rewrite Hs.
Qed.



Lemma C2_witness :
  exists r' st' v',
    getExpandedResults 0%nat [] None [viewOf ["title"; "user"] "event.type:error"]
    = Some (r', st')
    /\ st' !! r' = Some v'
    /\ r' <> 0%nat
    /\ fields v' = fields (viewOf ["title"; "user"] "event.type:error")
    /\ project v' = []
    /\ environment v' = []
    /\ query v' = stringifyQueryObject (removeAggregates (tokenizeSearch "event.type:error"))
    /\ (removeAggregates (tokenizeSearch "event.type:error") = tokenizeSearch "event.type:error" ->
        stringifyQueryObject (tokenizeSearch "event.type:error") = "event.type:error" ->
        query v' = "event.type:error").
Proof.
  apply (C2_bare_fields_no_row 0%nat [viewOf ["title"; "user"] "event.type:error"]
           (viewOf ["title"; "user"] "event.type:error")); [reflexivity|].
  repeat constructor.
Defined.

(** C2 fails as stated: a condition of the filter that is keyed by an
    aggregate is dropped, also for a view of bare fields, no row and no
    conditions. *)
Lemma C2_counterexample :
  Forall isBare (fields (viewOf ["title"] "count():>5 event.type:error"))
  /\ resultOf (getExpandedResults 0%nat [] None) [viewOf ["title"] "count():>5 event.type:error"]
     = Some (["title"], "event.type:error").
Proof. split; [repeat constructor|vm_compute; reflexivity]. Qed.











Lemma C10_witness :
  csvCell emptyUserRow "user" = disableMacros (VString "a@example.com")
  /\ csvCell emptyUserRow "user" = csvCell (delete "user" emptyUserRow) "user".
Proof.
  destruct (C10_csv_user_column (H := model) emptyUserRow "user" eq_refl) as [Hfirst Hempty].
  split; [apply Hfirst|apply Hempty]; reflexivity.
Defined.

(** * Further properties *)

(** ** The table of transforms and the pass over the fields *)

(** Only [last_seen] and the percentiles have an un-aggregated form that
    is a field: the five names the table maps to the empty string are
    treated like the names that are not in it, and the names of the
    members of [Object.prototype] yield the member, so that they count
    as transforms. *)
Theorem transformAggregate_table fieldName :
  transformAggregate fieldName
  = (if isPercentile fieldName then TransformString "transaction.duration"
     else if String.eqb fieldName "last_seen" then TransformString "timestamp"
     else if bool_decide (fieldName ∈ objectPrototypeMembers)
          then TransformInherited fieldName
          else TransformString "")
  /\ isTransformAggregate fieldName
     = isPercentile fieldName || String.eqb fieldName "last_seen"
       || bool_decide (fieldName ∈ objectPrototypeMembers).
Proof.
  assert (transformAggregate fieldName
          = (if isPercentile fieldName then TransformString "transaction.duration"
             else if String.eqb fieldName "last_seen" then TransformString "timestamp"
             else if bool_decide (fieldName ∈ objectPrototypeMembers)
                  then TransformInherited fieldName
                  else TransformString "")) as Heq.
  { unfold transformAggregate. destruct (isPercentile fieldName); [done|].
    unfold TRANSFORM_AGGREGATES. rewrite lookup_insert. case_decide as Hls.
    - subst. reflexivity.
    - assert (String.eqb fieldName "last_seen" = false) as ->.
      { apply String.eqb_neq. congruence. }
      repeat (rewrite lookup_insert; case_decide; [by subst|]).
      by rewrite lookup_empty. }
  split; [done|]. unfold isTransformAggregate. rewrite Heq.
  destruct (isPercentile fieldName); [done|].
  destruct (String.eqb fieldName "last_seen"); [done|].
  by destruct (bool_decide (fieldName ∈ objectPrototypeMembers)).
Qed.

Section FurtherExpansion.
Context `{Imports}.











End FurtherExpansion.

(** ** The conditions *)

Section FurtherObjects.
Context {V : Type}.
Implicit Types (o : Obj V) (k : string) (v : V).

(** [Object.assign]: the properties of the source win. *)
Lemma objGet_objAssign (source : Obj V) : forall (target : Obj V) k,
  NoDup (objKeys source) ->
  objGet (objAssign target source) k
  = match objGet source k with Some v => Some v | None => objGet target k end.
Proof.
  unfold objAssign, objKeys.
  induction source as [|[k0 v0] source IH]; intros target k Hnd; cbn [fold_left map fst snd].
  - done.
  - apply NoDup_cons in Hnd as [Hk0 Hnd]. rewrite (IH _ _ Hnd). cbn [objGet fst snd].
    destruct (decide (k0 = k)) as [->|Hne].
    + apply (objGet_None_not_in source k) in Hk0. by rewrite Hk0, objGet_objSet_eq.
    + by rewrite objGet_objSet_ne.
Qed.

Lemma NoDup_objDelete o k : NoDup (objKeys o) -> NoDup (objKeys (objDelete k o)).
Proof.
  unfold objKeys, objDelete. induction o as [|[k0 v0] o IH]; [done|].
  cbn [map fst]. intros [Hk0 Hnd]%NoDup_cons. rewrite filter_cons.
  destruct (decide (_ <> k)); [|by apply IH]. cbn [map fst].
  constructor; [|by apply IH]. intros Hin. apply Hk0.
  apply list_elem_of_fmap in Hin as (kv&->&Hkv%list_elem_of_filter).
  apply list_elem_of_fmap. exists kv. by destruct Hkv.
Qed.


End FurtherObjects.



Lemma split_pieces sep s : Forall (fun p => existsChar (fun c => Ascii.eqb c sep) p = false) (split sep s).
Proof.
  induction s as [|c s IH]; cbn [split].
  - by repeat constructor.
  - destruct (Ascii.eqb c sep) eqn:Hc.
    + by constructor.
    + destruct (split sep s) as [|p ps].
      * constructor; [|constructor]. cbn. by rewrite Hc.
      * apply Forall_cons in IH as [Hp Hps]. constructor; [|done]. cbn. by rewrite Hc.
Qed.

Lemma split_cut sep s :
  existsChar (fun c => Ascii.eqb c sep) s = true ->
  exists a b, s = a +:+ String sep b /\ existsChar (fun c => Ascii.eqb c sep) a = false.
Proof.
  induction s as [|c s IH]; cbn [existsChar]; [done|].
  destruct (Ascii.eqb c sep) eqn:Hc.
  - intros _. apply Ascii.eqb_eq in Hc as ->. by exists "", s.
  - cbn [orb]. intros Hs. destruct (IH Hs) as (a&b&->&Ha).
    exists (String c a), b. split; [done|]. cbn. by rewrite Hc.
Qed.

(** [normalizeUserTag]: a value without a colon comes back as it is under
    the key; a value with a colon gives the sub-key before its first
    colon; and the value that comes back never has a colon in it. *)
Theorem normalizeUserTag_shape key value :
  existsChar (fun c => Ascii.eqb c ":") (normalizeUserTag key value).2 = false
  /\ (existsChar (fun c => Ascii.eqb c ":") value = false ->
      normalizeUserTag key value = (key, value))
  /\ (existsChar (fun c => Ascii.eqb c ":") value = true ->
      exists a b,
        value = a +:+ String ":" b
        /\ existsChar (fun c => Ascii.eqb c ":") a = false
        /\ (normalizeUserTag key value).1 = key +:+ "." +:+ a).
Proof.
  split_and!.
  - unfold normalizeUserTag, splitLimit.
    pose proof (split_pieces ":" value) as Hp. pose proof (split_nonempty ":" value) as Hne.
    destruct (split ":" value) as [|p0 [|p1 ps]]; [done|..].
    + cbn. by apply Forall_cons in Hp as [? _].
    + apply Forall_cons in Hp as [_ [? _]%Forall_cons]. by destruct ps.
  - apply normalizeUserTag_without.
  - intros Hc. destruct (split_cut _ _ Hc) as (a&b&->&Ha). exists a, b.
    split_and!; [done..|]. by rewrite (normalizeUserTag_with _ _ _ Ha).
Qed.

Section FurtherConditions.
Context `{Imports}.




End FurtherConditions.

(** ** Query assembly *)

Section FurtherAssembly.
Context `{Imports}.


Lemma conditionQuery_cons pq k x conditions :
  conditionQuery pq ((k, x) :: conditions)
  = conditionQuery
      (if decide (k = "project.id") then pq
       else if decide (k = "environment") then pq
       else if decide (k = "user") then
         objSet (normalizeUserTag k x).1 [(normalizeUserTag k x).2] pq
       else if isFunction (explodeFieldString k) then pq
       else objSet k [x] pq) conditions.
Proof. reflexivity. Qed.






(** The conditions under which no round of the loop writes the key. *)
Lemma conditionQuery_preserve k conditions : forall pq,
  k ∉ objKeys conditions ->
  k <> "user" -> (forall a, k <> "user" +:+ "." +:+ a) ->
  objGet (conditionQuery pq conditions) k = objGet pq k.
Proof.
  induction conditions as [|[k0 x0] conditions IH]; intros pq; [done|].
  intros [Hk0 Hrest]%not_elem_of_cons Hu Hua.
  rewrite conditionQuery_cons, (IH _ Hrest Hu Hua).
  destruct (decide (k0 = "project.id")); [done|].
  destruct (decide (k0 = "environment")); [done|].
  destruct (decide (k0 = "user")) as [->|].
  { apply objGet_objSet_ne. by apply normalizeUserTag_key_ne. }
  destruct (isFunction (explodeFieldString k0)); [done|].
  apply objGet_objSet_ne. cbn in Hk0. congruence.
Qed.

Lemma conditionQuery_set k x conditions : forall pq,
  NoDup (objKeys conditions) ->
  objGet conditions k = Some x ->
  k <> "project.id" -> k <> "environment" ->
  k <> "user" -> (forall a, k <> "user" +:+ "." +:+ a) ->
  isFunction (explodeFieldString k) = false ->
  objGet (conditionQuery pq conditions) k = Some [x].
Proof.
  induction conditions as [|[k0 x0] conditions IH]; intros pq; [done|].
  intros [Hk0 Hnd]%NoDup_cons Hget Hp He Hu Hua Hbare. cbn [objGet] in Hget.
  destruct (decide (k0 = k)) as [->|Hne].
  - injection Hget as ->. rewrite conditionQuery_cons.
    rewrite !decide_False by done. rewrite Hbare.
    rewrite conditionQuery_preserve by done. apply objGet_objSet_eq.
  - rewrite conditionQuery_cons. by apply IH.
Qed.






End FurtherAssembly.

Section FurtherMerge.
Context `{Imports}.

Lemma NoDup_conditionsOfField dataRow conditions f :
  NoDup (objKeys conditions) -> NoDup (objKeys (conditionsOfField dataRow conditions f)).
Proof.
  intros Hnd. unfold conditionsOfField.
  repeat case_match; repeat (apply NoDup_objSet || apply NoDup_objDelete); done.
Qed.

Lemma NoDup_generated dataRow fs : forall conditions,
  NoDup (objKeys conditions) ->
  NoDup (objKeys (fold_left (conditionsOfField dataRow) fs conditions)).
Proof.
  induction fs as [|f fs IH]; intros conditions Hnd; cbn [fold_left]; [done|].
  by apply IH, NoDup_conditionsOfField.
Qed.

(** A generated condition goes before the caller's of the same key: for
    a bare key other than the scope keys and the [user] keys, the filter
    handed to the serialiser holds under the key the one value the row
    gave, whatever the caller's conditions hold there. *)
Theorem generated_condition_wins r (st : Store) v additionalConditions row generated k x :
  st !! r = Some v ->
  generateAdditionalConditions r (Some row) st = Some (generated, st) ->
  objGet generated k = Some x ->
  k <> "project.id" -> k <> "environment" ->
  k <> "user" -> (forall a, k <> "user" +:+ "." +:+ a) ->
  isFunction (explodeFieldString k) = false ->
  exists parsedQuery st',
    generateExpandedConditions r additionalConditions (Some row) st
    = Some (stringifyQueryObject parsedQuery, st')
    /\ objGet parsedQuery k = Some [x].
Proof.
  intros Hr Hgen Hget Hp He Hu Hua Hbare.
  rewrite (generateAdditionalConditions_run _ _ _ _ Hr) in Hgen. injection Hgen as <-.
  rewrite (generateExpandedConditions_run _ _ _ _ _ Hr). cbv zeta.
  eexists _, _. split; [done|].
  apply conditionQuery_set; [apply NoDup_mergedConditions| |done..].
  unfold mergedConditions. rewrite objGet_objAssign by (apply NoDup_generated; constructor).
  by rewrite Hget.
Qed.

End FurtherMerge.

(** ** The table columns, the title and the prebuilt queries *)

Lemma string_app_assoc (s1 s2 s3 : string) : (s1 +:+ s2) +:+ s3 = s1 +:+ (s2 +:+ s3).
Proof.
  induction s1 as [|c s1 IH]; [done|].
  change (String c ((s1 +:+ s2) +:+ s3) = String c (s1 +:+ (s2 +:+ s3))). by f_equal.
Qed.

Lemma string_app_inj (p a b : string) : p +:+ a = p +:+ b -> a = b.
Proof.
  induction p as [|c p IH]; [done|].
  change (String c (p +:+ a) = String c (p +:+ b) -> a = b). intros [= Heq]. by apply IH.
Qed.

Section FurtherPage.
Context `{Imports} `{PageImports}.

Lemma widthOrUndefined_nonzero w : COL_WIDTH_UNDEFINED <> 0 -> widthOrUndefined w <> 0.
Proof.
  intros Hc. unfold widthOrUndefined. destruct w as [z|]; [|done].
  by destruct (Z.eqb_spec z 0).
Qed.

(** When [COL_WIDTH_UNDEFINED] is not 0, no column has the width 0: a
    field's width that is defined and not 0 is the width of its column,
    and [COL_WIDTH_UNDEFINED] is the width of every other one. *)
Theorem column_width_never_zero fs :
  COL_WIDTH_UNDEFINED <> 0 ->
  Forall2 (fun f c =>
             column_width c <> 0
             /\ column_width c
                = match width f with
                  | Some z => if decide (z = 0) then COL_WIDTH_UNDEFINED else z
                  | None => COL_WIDTH_UNDEFINED
                  end)
    fs (decodeColumnOrder fs).
Proof.
  intros Hc. unfold decodeColumnOrder. induction fs as [|f fs IH]; cbn [map]; constructor; [|done].
  assert (column_width (decodeColumn f) = widthOrUndefined (width f)) as ->.
  { unfold decodeColumn. by destruct (explodeFieldString (field f)). }
  split; [by apply widthOrUndefined_nonzero|].
  unfold widthOrUndefined. destruct (width f) as [z|]; [|done].
  destruct (Z.eqb_spec z 0); [by rewrite decide_True|by rewrite decide_False].
Qed.

(** A column is sortable only when it is the column of an aggregate whose
    row of [AGGREGATIONS] is sortable: the column of a bare field never
    is, and that of a function without a row has no [isSortable]. *)
Theorem sortable_columns fs c :
  c ∈ decodeColumnOrder fs ->
  column_isSortable c = Some true ->
  exists f0 f1 a,
    column_column c = FunctionCol f0 f1
    /\ AGGREGATIONS_meta !! f0 = Some a
    /\ isSortable a = true.
Proof.
  unfold decodeColumnOrder. intros (f&->&_)%list_elem_of_fmap. unfold decodeColumn.
  destruct (explodeFieldString (field f)) as [name|f0 f1]; cbn; [done|].
  destruct (AGGREGATIONS_meta !! f0) as [a|] eqn:Ha; [|done].
  intros [= Hs]. by exists f0, f1, a.
Qed.

(** The type of a column is undefined only for a bare field that [FIELDS]
    does not know: the column of an aggregate always has a type. *)
Theorem untyped_columns fs c :
  c ∈ decodeColumnOrder fs ->
  column_type c = None ->
  exists name, column_column c = FieldCol name /\ FIELDS !! name = None.
Proof.
  unfold decodeColumnOrder. intros (f&->&_)%list_elem_of_fmap. unfold decodeColumn.
  destruct (explodeFieldString (field f)) as [name|f0 f1]; cbn; [by exists name|].
  intros Hty. exfalso. revert Hty. repeat case_match; done.
Qed.

(** The title reads the title of the event, the trimmed name of the view
    and the translation of Discover, in this order and joined by [" - "];
    a missing event or an empty event title, and a name that is no string
    or is blank, are left out. *)
Theorem generateTitle_format eventViewName event :
  generateTitle eventViewName event
  = (match event with
     | Some e => if String.eqb (getTitle_title e) "" then "" else getTitle_title e +:+ " - "
     | None => ""
     end)
    +:+ (match eventViewName with
         | VString name => if (0 <? String.length (trim name))%nat then trim name +:+ " - " else ""
         | _ => ""
         end)
    +:+ t "Discover".
Proof.
  unfold generateTitle.
  destruct eventViewName as [| | | |name|]; try destruct (0 <? String.length (trim name))%nat;
    destruct event as [e|]; try destruct (String.eqb (getTitle_title e) "");
    cbn [app reverse rev_append join]; rewrite ?string_app_assoc; reflexivity.
Qed.

(** With the feature [performance-view] the prebuilt queries are
    [ALL_VIEWS] with [TRANSACTION_VIEWS] put in as one block: after the
    first two views, or at the end when there are fewer.  Every view of
    both lists is there, in its order and once. *)
Theorem prebuilt_queries_spliced features :
  "performance-view" ∈ features ->
  length (getPrebuiltQueries features) = (length ALL_VIEWS + length TRANSACTION_VIEWS)%nat
  /\ ALL_VIEWS `sublist_of` getPrebuiltQueries features
  /\ (forall i, (i < 2)%nat -> getPrebuiltQueries features !! i
                               = match ALL_VIEWS !! i with
                                 | Some x => Some x
                                 | None => TRANSACTION_VIEWS !! (i - length ALL_VIEWS)%nat
                                 end)
  /\ forall i x, TRANSACTION_VIEWS !! i = Some x ->
       getPrebuiltQueries features !! (Nat.min 2 (length ALL_VIEWS) + i)%nat = Some x.
Proof.
  intros Hf. unfold getPrebuiltQueries. rewrite bool_decide_eq_true_2 by done.
  unfold spliceAt2. split_and!.
  - rewrite !length_app, length_take, length_drop. lia.
  - rewrite <-(take_drop 2 ALL_VIEWS) at 1.
    apply sublist_app; [done|]. by apply sublist_inserts_l.
  - intros i Hi. destruct (decide (i < length ALL_VIEWS)%nat) as [Hlt|Hge].
    + rewrite lookup_app_l by (rewrite length_take; lia).
      rewrite lookup_take_lt by done.
      destruct (ALL_VIEWS !! i) eqn:Hl; [done|].
      apply lookup_ge_None in Hl. lia.
    + rewrite lookup_app_r by (rewrite length_take; lia).
      rewrite length_take, (lookup_ge_None_2 ALL_VIEWS i) by lia.
      rewrite drop_ge, app_nil_r by lia. f_equal. lia.
  - intros i x Hi.
    rewrite lookup_app_r by (rewrite length_take; lia).
    rewrite length_take. replace (_ + i - _)%nat with i by lia.
    by apply lookup_app_l_Some.
Qed.

End FurtherPage.

(** A key of the view's query string object overrides the same key of
    [extraQuery] in the query of the pushed location; a key of
    [extraQuery] alone is kept. *)
Theorem pushed_query_precedence {V} (extraQuery : option (Obj V)) (queryStringObject : Obj V) k :
  NoDup (objKeys (default [] extraQuery)) ->
  NoDup (objKeys queryStringObject) ->
  objGet (pushedQuery extraQuery queryStringObject) k
  = match objGet queryStringObject k with
    | Some v => Some v
    | None => objGet (default [] extraQuery) k
    end.
Proof.
  intros He Hq. unfold pushedQuery. rewrite !objGet_objAssign by done.
  destruct (objGet queryStringObject k); [done|].
  by destruct (objGet (default [] extraQuery) k).
Qed.

(** ** The options of the field picker *)

Section FoldSet.
Context {A V : Type} (key : A -> string) (val : A -> V).
Hypothesis key_inj : forall x y, key x = key y -> x = y.

Lemma fold_objSet_other xs : forall (o : Obj V) k,
  (forall x, x ∈ xs -> key x <> k) ->
  objGet (fold_left (fun o x => objSet (key x) (val x) o) xs o) k = objGet o k.
Proof.
  induction xs as [|a xs IH]; intros o k Hk; cbn [fold_left]; [done|].
  rewrite IH by (intros x Hx; apply Hk; by right).
  apply objGet_objSet_ne, Hk. by left.
Qed.

Lemma fold_objSet_in xs : forall (o : Obj V) x,
  x ∈ xs ->
  objGet (fold_left (fun o x => objSet (key x) (val x) o) xs o) (key x) = Some (val x).
Proof.
  induction xs as [|a xs IH] using rev_ind; intros o x Hx.
  { by apply elem_of_nil in Hx. }
  rewrite fold_left_app. cbn [fold_left].
  destruct (decide (key a = key x)) as [Heq|Hne].
  - apply key_inj in Heq as ->. apply objGet_objSet_eq.
  - rewrite objGet_objSet_ne by done. apply IH.
    apply elem_of_app in Hx as [Hx|Hx]; [done|].
    apply list_elem_of_singleton in Hx as ->. done.
Qed.

End FoldSet.

Section FurtherOptions.
Context `{Imports} `{PageImports} {P : Type}.
Implicit Types (aggregations : Obj (list P)) (fields : Obj string).

(** A tag does not displace a field of its name: whatever the tags are,
    the option under [field:name] of a field that is offered (any field
    with the feature [performance-view], one outside [TRACING_FIELDS]
    without it) is the option of the field, with its type. *)
Theorem field_option_kept ellipsis features tagKeys aggregations fields name :
  name ∈ objKeys fields ->
  "performance-view" ∈ features \/ name ∉ TRACING_FIELDS ->
  objGet (generateFieldOptions ellipsis features tagKeys aggregations fields)
    ("field:" +:+ name)
  = Some {| option_label := name; option_value := FieldValueOf name (objGet fields name) |}.
Proof.
  intros Hin Hgate. unfold generateFieldOptions.
  assert (name ∈ (if bool_decide ("performance-view" ∈ features) then objKeys fields
                  else filter (fun item => item ∉ TRACING_FIELDS) (objKeys fields))) as Hkeys.
  { destruct (bool_decide ("performance-view" ∈ features)) eqn:Hf; [done|].
    apply bool_decide_eq_false_1 in Hf. apply list_elem_of_filter. by destruct Hgate. }
  set (optionOf := fun fld : string =>
         {| option_label := fld;
            option_value := @FieldValueOf P fld (objGet fields fld) |}).
  assert (forall o : Obj (SelectValue P),
    objGet (fold_left (fun fieldOptions fld => objSet ("field:" +:+ fld) (optionOf fld) fieldOptions)
              (if bool_decide ("performance-view" ∈ features) then objKeys fields
               else filter (fun item => item ∉ TRACING_FIELDS) (objKeys fields)) o)
      ("field:" +:+ name) = Some (optionOf name)) as Hfields.
  { intros o. apply (fold_objSet_in (fun fld => "field:" +:+ fld) optionOf); [|done].
    intros x y. apply string_app_inj. }
  destruct tagKeys as [tagKeys|]; [|apply Hfields].
  rewrite (fold_objSet_other (fun tag => "tag:" +:+ tag)
             (fun tag => {| option_label := tag;
                            option_value := TagValue
                              (if bool_decide (is_Some (objGet fields tag))
                                  || bool_decide (is_Some (AGGREGATIONS !! tag))
                               then "tags[" +:+ tag +:+ "]" else tag) "string" |})).
  - apply Hfields.
  - intros x _. discriminate.
Qed.

(** Nor does a tag or a field displace a function of its name: the
    option under [function:name] of a function that is offered is the
    option of the function, with its parameters, and its label has the
    ellipsis between the brackets exactly when there are parameters. *)
Theorem function_option_kept ellipsis features tagKeys aggregations fields name parameters :
  objGet aggregations name = Some parameters ->
  "performance-view" ∈ features \/ name ∉ TRACING_FIELDS ->
  objGet (generateFieldOptions ellipsis features tagKeys aggregations fields)
    ("function:" +:+ name)
  = Some {| option_label :=
              name +:+ "(" +:+ (if decide (parameters = []) then "" else ellipsis) +:+ ")";
            option_value := FunctionValue name parameters |}.
Proof.
  intros Hget Hgate. unfold generateFieldOptions.
  assert (name ∈ objKeys aggregations) as Hin.
  { destruct (decide (name ∈ objKeys aggregations)) as [|Hn]; [done|].
    apply objGet_None_not_in in Hn. congruence. }
  assert (name ∈ (if bool_decide ("performance-view" ∈ features) then objKeys aggregations
                  else filter (fun item => item ∉ TRACING_FIELDS) (objKeys aggregations)))
    as Hkeys.
  { destruct (bool_decide ("performance-view" ∈ features)) eqn:Hf; [done|].
    apply bool_decide_eq_false_1 in Hf. apply list_elem_of_filter. by destruct Hgate. }
  set (optionOf := fun func : string =>
         {| option_label :=
              func +:+ "(" +:+ (if (0 <? length (default [] (objGet aggregations func)))%nat
                                then ellipsis else "") +:+ ")";
            option_value := FunctionValue func (default [] (objGet aggregations func)) |}).
  assert (Some {| option_label :=
                    name +:+ "(" +:+ (if decide (parameters = []) then "" else ellipsis) +:+ ")";
                  option_value := FunctionValue name parameters |}
          = Some (optionOf name)) as ->.
  { unfold optionOf. rewrite Hget. cbn [default]. by destruct parameters. }
  assert (forall o : Obj (SelectValue P),
    objGet (fold_left (fun fieldOptions func =>
                         objSet ("function:" +:+ func) (optionOf func) fieldOptions)
              (if bool_decide ("performance-view" ∈ features) then objKeys aggregations
               else filter (fun item => item ∉ TRACING_FIELDS) (objKeys aggregations)) o)
      ("function:" +:+ name) = Some (optionOf name)) as Hfunctions.
  { intros o. apply (fold_objSet_in (fun func => "function:" +:+ func) optionOf); [|done].
    intros x y. apply string_app_inj. }
  set (fieldOf := fun fld : string =>
         {| option_label := fld;
            option_value := @FieldValueOf P fld (objGet fields fld) |}).
  set (tagOf := fun tag : string =>
         {| option_label := tag;
            option_value := @TagValue P
              (if bool_decide (is_Some (objGet fields tag))
                  || bool_decide (is_Some (AGGREGATIONS !! tag))
               then "tags[" +:+ tag +:+ "]" else tag) "string" |}).
  destruct tagKeys as [tagKeys|].
  - rewrite (fold_objSet_other (fun tag => "tag:" +:+ tag) tagOf) by (intros x _; discriminate).
    rewrite (fold_objSet_other (fun fld => "field:" +:+ fld) fieldOf) by (intros x _; discriminate).
    apply Hfunctions.
  - rewrite (fold_objSet_other (fun fld => "field:" +:+ fld) fieldOf) by (intros x _; discriminate).
    apply Hfunctions.
Qed.

(** Every tag has its option under [tag:name], labelled by the tag; the
    name in the option is [tags[name]] when the tag has the name of a
    field handed in or of a function of [AGGREGATIONS], and the tag
    otherwise. *)
Theorem tag_option ellipsis features tagKeys aggregations fields tag :
  tag ∈ tagKeys ->
  objGet (generateFieldOptions ellipsis features (Some tagKeys) aggregations fields)
    ("tag:" +:+ tag)
  = Some {| option_label := tag;
            option_value :=
              TagValue (if bool_decide (is_Some (objGet fields tag))
                           || bool_decide (is_Some (AGGREGATIONS !! tag))
                        then "tags[" +:+ tag +:+ "]" else tag) "string" |}.
Proof.
  intros Hin. unfold generateFieldOptions.
  apply (fold_objSet_in (fun tag => "tag:" +:+ tag)
           (fun tag => {| option_label := tag;
                          option_value := @TagValue P
                            (if bool_decide (is_Some (objGet fields tag))
                                || bool_decide (is_Some (AGGREGATIONS !! tag))
                             then "tags[" +:+ tag +:+ "]" else tag) "string" |})); [|done].
  intros x y. apply string_app_inj.
Qed.

(** Without the feature [performance-view] no field and no function of
    [TRACING_FIELDS] is offered, whatever the tags are. *)
Theorem tracing_fields_gated ellipsis features tagKeys aggregations fields name :
  "performance-view" ∉ features ->
  name ∈ TRACING_FIELDS ->
  objGet (generateFieldOptions ellipsis features tagKeys aggregations fields)
    ("field:" +:+ name) = None
  /\ objGet (generateFieldOptions ellipsis features tagKeys aggregations fields)
       ("function:" +:+ name) = None.
Proof.
  intros Hf Hname. unfold generateFieldOptions. rewrite !bool_decide_eq_false_2 by done.
  set (optionOf := fun func : string =>
         {| option_label :=
              func +:+ "(" +:+ (if (0 <? length (default [] (objGet aggregations func)))%nat
                                then ellipsis else "") +:+ ")";
            option_value := FunctionValue func (default [] (objGet aggregations func)) |}).
  set (fieldOf := fun fld : string =>
         {| option_label := fld;
            option_value := @FieldValueOf P fld (objGet fields fld) |}).
  set (tagOf := fun tag : string =>
         {| option_label := tag;
            option_value := @TagValue P
              (if bool_decide (is_Some (objGet fields tag))
                  || bool_decide (is_Some (AGGREGATIONS !! tag))
               then "tags[" +:+ tag +:+ "]" else tag) "string" |}).
  assert (forall (keys : list string) x,
            x ∈ filter (fun item => item ∉ TRACING_FIELDS) keys -> x <> name) as Hfilter.
  { intros keys x [Hx _]%list_elem_of_filter ->. done. }
  assert (forall (p : string) x, x <> name -> p +:+ x <> p +:+ name) as Hpre.
  { intros p x Hne Heq. by apply string_app_inj in Heq. }
  split.
  - destruct tagKeys as [tagKeys|];
      [rewrite (fold_objSet_other (fun tag => "tag:" +:+ tag) tagOf) by (intros x _; discriminate)|];
      rewrite (fold_objSet_other (fun fld => "field:" +:+ fld) fieldOf)
        by (intros x Hx; eapply Hpre, Hfilter, Hx);
      by rewrite (fold_objSet_other (fun func => "function:" +:+ func) optionOf)
        by (intros x _; discriminate).
  - destruct tagKeys as [tagKeys|];
      [rewrite (fold_objSet_other (fun tag => "tag:" +:+ tag) tagOf) by (intros x _; discriminate)|];
      rewrite (fold_objSet_other (fun fld => "field:" +:+ fld) fieldOf)
        by (intros x _; discriminate);
      by rewrite (fold_objSet_other (fun func => "function:" +:+ func) optionOf)
        by (intros x Hx; eapply Hpre, Hfilter, Hx).
Qed.

End FurtherOptions.

(** ** The further properties at concrete views *)













Lemma generated_condition_wins_witness :
  exists parsedQuery st',
    generateExpandedConditions 0%nat [("title", "other")] (Some taggedRow) [stagingView]
    = Some (stringifyQueryObject parsedQuery, st')
    /\ objGet parsedQuery "title" = Some ["bar"].
Proof.
  apply (generated_condition_wins 0%nat [stagingView] stagingView [("title", "other")]
           taggedRow [("title", "bar")] "title" "bar").
  - reflexivity.
  - vm_compute. reflexivity.
  - reflexivity.
  - discriminate.
  - discriminate.
  - discriminate.
  - intros a. discriminate.
  - reflexivity.
Defined.

Lemma column_width_never_zero_witness :
  Forall2 (fun f c =>
             column_width c <> 0
             /\ column_width c
                = match width f with
                  | Some z => if decide (z = 0) then COL_WIDTH_UNDEFINED else z
                  | None => COL_WIDTH_UNDEFINED
                  end)
    sampleColumns (decodeColumnOrder sampleColumns).
Proof.
  apply (column_width_never_zero (H := model) (H0 := pageSample) sampleColumns).
  cbn. lia.
Defined.

Lemma sortable_columns_witness :
  exists f0 f1 a,
    column_column (decodeColumn {| field := "count()"; width := Some 120 |}) = FunctionCol f0 f1
    /\ AGGREGATIONS_meta !! f0 = Some a
    /\ isSortable a = true.
Proof.
  apply (sortable_columns (H := model) (H0 := pageSample) sampleColumns).
  - apply (list_elem_of_lookup_2 _ 1%nat). reflexivity.
  - reflexivity.
Defined.

Lemma untyped_columns_witness :
  exists name,
    column_column (decodeColumn {| field := "custom"; width := None |}) = FieldCol name
    /\ FIELDS !! name = None.
Proof.
  apply (untyped_columns (H := model) (H0 := pageSample) sampleColumns).
  - apply (list_elem_of_lookup_2 _ 2%nat). reflexivity.
  - reflexivity.
Defined.

Lemma prebuilt_queries_spliced_witness :
  length (getPrebuiltQueries ["performance-view"])
  = (length ALL_VIEWS + length TRANSACTION_VIEWS)%nat
  /\ ALL_VIEWS `sublist_of` getPrebuiltQueries ["performance-view"]
  /\ (forall i, (i < 2)%nat ->
        getPrebuiltQueries ["performance-view"] !! i
        = match ALL_VIEWS !! i with
          | Some x => Some x
          | None => TRANSACTION_VIEWS !! (i - length ALL_VIEWS)%nat
          end)
  /\ forall i x, TRANSACTION_VIEWS !! i = Some x ->
       getPrebuiltQueries ["performance-view"] !! (Nat.min 2 (length ALL_VIEWS) + i)%nat
       = Some x.
Proof.
  apply (prebuilt_queries_spliced (H0 := pageSample) ["performance-view"]).
  refine (bool_decide_eq_true_1 _ _). reflexivity.
Defined.

Lemma pushed_query_precedence_witness :
  objGet (pushedQuery (Some [("cursor", "0:10"); ("query", "old")])
            [("query", "new"); ("field", "title")]) "query"
  = match objGet [("query", "new"); ("field", "title")] "query" with
    | Some v => Some v
    | None => objGet (default [] (Some [("cursor", "0:10"); ("query", "old")])) "query"
    end.
Proof.
  apply (pushed_query_precedence (Some [("cursor", "0:10"); ("query", "old")])
           [("query", "new"); ("field", "title")] "query").
  - refine (bool_decide_eq_true_1 _ _). vm_compute. reflexivity.
  - refine (bool_decide_eq_true_1 _ _). vm_compute. reflexivity.
Defined.

Lemma field_option_kept_witness :
  objGet (generateFieldOptions "..." [] (Some ["title"; "custom"]) sampleAggregations
            sampleFields) "field:title"
  = Some {| option_label := "title";
            option_value := FieldValueOf "title" (objGet sampleFields "title") |}.
Proof.
  apply (field_option_kept (H := model) (H0 := pageSample) "..." [] (Some ["title"; "custom"])
           sampleAggregations sampleFields "title").
  - refine (bool_decide_eq_true_1 _ _). vm_compute. reflexivity.
  - right. refine (bool_decide_eq_false_1 _ _). vm_compute. reflexivity.
Defined.

Lemma function_option_kept_witness :
  objGet (generateFieldOptions "..." [] (Some ["count"]) sampleAggregations sampleFields)
    "function:count"
  = Some {| option_label :=
              "count" +:+ "(" +:+ (if decide (@nil ParameterKind = []) then "" else "...")
              +:+ ")";
            option_value := FunctionValue "count" [] |}.
Proof.
  apply (function_option_kept (H := model) (H0 := pageSample) "..." [] (Some ["count"])
           sampleAggregations sampleFields "count" []).
  - reflexivity.
  - right. refine (bool_decide_eq_false_1 _ _). vm_compute. reflexivity.
Defined.

Lemma tag_option_witness :
  objGet (generateFieldOptions "..." [] (Some ["title"; "custom"]) sampleAggregations
            sampleFields) "tag:title"
  = Some {| option_label := "title";
            option_value :=
              TagValue (if bool_decide (is_Some (objGet sampleFields "title"))
                           || bool_decide (is_Some (AGGREGATIONS !! "title"))
                        then "tags[" +:+ "title" +:+ "]" else "title") "string" |}.
Proof.
  apply (tag_option (H := model) (H0 := pageSample) "..." [] ["title"; "custom"]
           sampleAggregations sampleFields "title").
  refine (bool_decide_eq_true_1 _ _). vm_compute. reflexivity.
Defined.

Lemma tracing_fields_gated_witness :
  objGet (generateFieldOptions "..." [] (Some ["trace"]) sampleAggregations sampleFields)
    "field:trace" = None
  /\ objGet (generateFieldOptions "..." [] (Some ["trace"]) sampleAggregations sampleFields)
       "function:trace" = None.
Proof.
  apply (tracing_fields_gated (H := model) (H0 := pageSample) "..." [] (Some ["trace"])
           sampleAggregations sampleFields "trace").
  - refine (bool_decide_eq_false_1 _ _). vm_compute. reflexivity.
  - refine (bool_decide_eq_true_1 _ _). vm_compute. reflexivity.
Defined.
